(** * Channel message board: a model of [main.go] and its properties

    The handlers of [main.go] ([getMessage], [getThreads], [postMessage],
    [postThread]) are embedded as state-passing functions over the process-wide
    map [liveMessages], one request at a time: each handler runs its critical
    section to completion before the next request is served.  A handler either
    writes a response or panics (a Go run-time error such as an index out of
    range); [net/http] recovers the panic of a handler, so the server goes on
    with the state the handler left behind.  The last part takes a post of a
    message apart into its two lock-protected sections, to see what a request
    that comes between them finds.

    Integers are Go [int]s, modelled as [Z].  The only arithmetic on them is
    [len(..) + 1] on a slice length, which cannot leave the 64-bit range, so no
    wrap-around is written out. *)

From Stdlib Require Import ZArith Ascii String List Lia Sorted.
From stdpp Require Import base option list sorting gmap strings.

(** ** Data model *)

(** [type Thread struct { Username string; Message string }] *)
Record Thread := mkThread {
  ThreadUsername : string;
  ThreadMessage : string;
}.

(** [type msgPost struct { Id int; Username string; Message string; Threads []Thread }] *)
Record msgPost := mkMsgPost {
  Id : Z;
  Username : string;
  Message : string;
  Threads : list Thread;
}.

(** [type subject struct { sync.RWMutex; Messages []msgPost; title string }].
    The lock has no content between two requests and is left out. *)
Record subject := mkSubject {
  Messages : list msgPost;
  title : string;
}.

(** [var liveMessages map[string]*subject].  Every pointer stored in the map
    comes from its own [&subject{}], so no two keys share a subject and the
    map of pointers is a map of values. *)
Abbreviation liveMessages := (gmap string subject).

(** ** What the handlers use of Go and of its libraries *)

Module Go.

(** [l[i]]: [None] stands for the run-time panic "index out of range". *)
Definition index {A} (l : list A) (i : Z) : option A :=
  if bool_decide (i < 0)%Z then None else l !! Z.to_nat i.

(** [l[i:]]: [None] stands for the panic "slice bounds out of range". *)
Definition slice_from {A} (l : list A) (i : Z) : option (list A) :=
  if bool_decide (i < 0 ∨ Z.of_nat (length l) < i)%Z then None
  else Some (drop (Z.to_nat i) l).

(** [strings.ToLower] on ASCII text: the router lets only ASCII channel
    names through (see [routeChannel]). *)
Definition lower (c : ascii) : ascii :=
  let n := nat_of_ascii c in
  if (65 <=? n)%nat && (n <=? 90)%nat then ascii_of_nat (n + 32) else c.

Fixpoint ToLower (s : string) : string :=
  match s with
  | EmptyString => EmptyString
  | String c s' => String (lower c) (ToLower s')
  end.

Definition is_upper (c : ascii) : bool :=
  let n := nat_of_ascii c in (65 <=? n)%nat && (n <=? 90)%nat.

Fixpoint has_upper (s : string) : bool :=
  match s with
  | EmptyString => false
  | String c s' => is_upper c || has_upper s'
  end.

(** [strconv.Atoi] with a 64-bit [int]: an optional sign, then one or more
    decimal digits, and a value in the range of [int]. *)
Definition digit (c : ascii) : option Z :=
  let n := nat_of_ascii c in
  if (48 <=? n)%nat && (n <=? 57)%nat then Some (Z.of_nat (n - 48)) else None.

Fixpoint digits (acc : Z) (s : string) : option Z :=
  match s with
  | EmptyString => Some acc
  | String c s' =>
      match digit c with
      | Some d => digits (acc * 10 + d) s'
      | None => None
      end
  end.

Definition unsigned (s : string) : option Z :=
  match s with
  | EmptyString => None
  | _ => digits 0 s
  end.

Definition in_int (n : Z) : option Z :=
  if bool_decide (- 2 ^ 63 ≤ n < 2 ^ 63)%Z then Some n else None.

Definition Atoi (s : string) : option Z :=
  match s with
  | String "+" s' => n ← unsigned s'; in_int n
  | String "-" s' => n ← unsigned s'; in_int (- n)
  | _ => n ← unsigned s; in_int n
  end.

End Go.

(** ** Responses *)

Definition StatusOK : Z := 200.
Definition StatusBadRequest : Z := 400.
Definition StatusNotFound : Z := 404.
Definition StatusInternalServerError : Z := 500.

(** The values handed to [respondJSON]: a plain string, the map
    [{"error": ..}] of [respondError], [{"messages": []msgPost}],
    [{"messages": []Thread}] and [{"id": int}]. *)
Inductive payload :=
  | Text (s : string)
  | ErrorOf (message : string)
  | MessagesOf (l : list msgPost)
  | ThreadsOf (l : list Thread)
  | IdOf (id : Z).

(** How a handler ends: it has written a response, or it has panicked. *)
Inductive outcome :=
  | Respond (status : Z) (p : payload)
  | Panic.

(** [json.Marshal] cannot fail on any of the payloads above, so [respondJSON]
    always writes the status and the payload. *)
Definition respondJSON (status : Z) (p : payload) : outcome := Respond status p.

Definition respondError (code : Z) (message : string) : outcome :=
  respondJSON code (ErrorOf message).

(** The result of [decoder.Decode(&v)] on a request body. *)
Inductive decoded (A : Type) :=
  | Decoded (v : A)
  | DecodeError (err : string).
Arguments Decoded {A} v.
Arguments DecodeError {A} err.

(** ** The handlers *)

(** Lines 48-59 of [getMessage]: the [last_id] query parameter. *)
Definition last_id (key : string) : option Z :=
  if decide (key = "") then Some 0%Z else Go.Atoi key.

Definition getMessage (channel key : string) (live : liveMessages)
  : outcome * liveMessages :=
  let channel := Go.ToLower channel in
  match last_id key with
  | None => (respondJSON StatusBadRequest (Text "last_id should be an integer"), live)
  | Some id =>
      match live !! channel with
      | Some subject =>
          if bool_decide (Z.of_nat (length (Messages subject)) ≤ id)%Z then
            (respondJSON StatusBadRequest (Text "No new message after last_id"), live)
          else
            match Go.slice_from (Messages subject) id with
            | Some ms => (respondJSON StatusOK (MessagesOf ms), live)
            | None => (Panic, live)
            end
      | None =>
          (respondJSON StatusBadRequest (Text "Sorry No such channel exist!"), live)
      end
  end.

Definition getThreads (channel message_id : string) (live : liveMessages)
  : outcome * liveMessages :=
  let channel := Go.ToLower channel in
  match Go.Atoi message_id with
  | None => (respondJSON StatusBadRequest (Text "message_id should be an integer"), live)
  | Some id =>
      match live !! channel with
      | Some subject =>
          if bool_decide (Z.of_nat (length (Messages subject)) ≤ id)%Z then
            (respondJSON StatusBadRequest (Text "No message for the provided id"), live)
          else
            match Go.index (Messages subject) id with
            | Some m => (respondJSON StatusOK (ThreadsOf (Threads m)), live)
            | None => (Panic, live)
            end
      | None =>
          (respondJSON StatusBadRequest (Text "Sorry No such channel exist!"), live)
      end
  end.

(** [mesg.Username != "" && mesg.Message != ""] *)
Definition filled (username message : string) : bool :=
  bool_decide (username ≠ "") && bool_decide (message ≠ "").

Definition postMessage (channel : string) (body : decoded msgPost)
    (live : liveMessages) : outcome * liveMessages :=
  match body with
  | DecodeError err => (respondError StatusInternalServerError err, live)
  | Decoded mesg =>
      if filled (Username mesg) (Message mesg) then
        (* first time: create the subject of the channel *)
        let live :=
          match live !! channel with
          | None => <[channel := mkSubject [] ""]> live
          | Some _ => live
          end in
        match live !! channel with
        | Some subject =>
            let id := (Z.of_nat (length (Messages subject)) + 1)%Z in
            let mesg := mkMsgPost id (Username mesg) (Message mesg) (Threads mesg) in
            (respondJSON StatusOK (IdOf id),
             <[channel := mkSubject (Messages subject ++ [mesg]) (title subject)]> live)
        | None => (Panic, live)
        end
      else
        (respondJSON StatusBadRequest (Text "Empty username or message!"), live)
  end.

Definition postThread (channel message_id : string) (body : decoded Thread)
    (live : liveMessages) : outcome * liveMessages :=
  match Go.Atoi message_id with
  | None => (respondJSON StatusBadRequest (Text "message_id should be an integer"), live)
  | Some id =>
      match body with
      | DecodeError err => (respondError StatusInternalServerError err, live)
      | Decoded mesg =>
          if filled (ThreadUsername mesg) (ThreadMessage mesg) then
            match live !! channel with
            | None =>
                (respondJSON StatusBadRequest (Text "Provided channel does not exist!"), live)
            | Some subject =>
                if bool_decide (Z.of_nat (length (Messages subject)) ≤ id)%Z then
                  (respondJSON StatusBadRequest (Text "Provided messageId does not exist!"), live)
                else
                  match Go.index (Messages subject) id with
                  | Some m =>
                      let m := mkMsgPost (Id m) (Username m) (Message m) (Threads m ++ [mesg]) in
                      (respondJSON StatusOK (IdOf id),
                       <[channel := mkSubject (<[Z.to_nat id := m]> (Messages subject))
                                              (title subject)]> live)
                  | None => (Panic, live)
                  end
            end
          else
            (respondJSON StatusBadRequest (Text "Empty username or message!"), live)
      end
  end.

(** ** The router of [main] and runs of the server *)

(** The character class [[A-Z,a-z,0-9,-]] of the four routes. *)
Definition channelChar (c : ascii) : bool :=
  let n := nat_of_ascii c in
  (65 <=? n)%nat && (n <=? 90)%nat || (97 <=? n)%nat && (n <=? 122)%nat
  || (48 <=? n)%nat && (n <=? 57)%nat || (n =? 44)%nat || (n =? 45)%nat.

Fixpoint allChars (p : ascii -> bool) (s : string) : bool :=
  match s with
  | EmptyString => true
  | String c s' => p c && allChars p s'
  end.

(** [{channel:[A-Z,a-z,0-9,-]+}] *)
Definition routeChannel (channel : string) : bool :=
  bool_decide (channel ≠ "") && allChars channelChar channel.

(** [{message_id}]: one non-empty path segment. *)
Definition routeSegment (seg : string) : bool :=
  bool_decide (seg ≠ "") && allChars (fun c => negb (nat_of_ascii c =? 47)%nat) seg.

(** A request as the router sees it: method, path variables, query parameter
    and decoded body. *)
Inductive request :=
  | GET_messages (channel key : string)
  | POST_messages (channel : string) (body : decoded msgPost)
  | GET_thread (channel message_id : string)
  | POST_thread (channel message_id : string) (body : decoded Thread).

Definition notFound : outcome := Respond StatusNotFound (Text "404 page not found").

Definition serve (r : request) (live : liveMessages) : outcome * liveMessages :=
  match r with
  | GET_messages channel key =>
      if routeChannel channel then getMessage channel key live else (notFound, live)
  | POST_messages channel body =>
      if routeChannel channel then postMessage channel body live else (notFound, live)
  | GET_thread channel message_id =>
      if routeChannel channel && routeSegment message_id
      then getThreads channel message_id live else (notFound, live)
  | POST_thread channel message_id body =>
      if routeChannel channel && routeSegment message_id
      then postThread channel message_id body live else (notFound, live)
  end.

(** The requests served so far, oldest first, with what each one got, and the
    map they leave.  [main] starts from [make(map[string]*subject)]. *)
Fixpoint run (reqs : list request) (live : liveMessages)
  : list (request * outcome) * liveMessages :=
  match reqs with
  | [] => ([], live)
  | r :: reqs' =>
      let '(o, live') := serve r live in
      let '(log, live'') := run reqs' live' in
      ((r, o) :: log, live'')
  end.

Definition history (reqs : list request) : list (request * outcome) := (run reqs ∅).1.
Definition state_after (reqs : list request) : liveMessages := (run reqs ∅).2.

(** The message log of a channel; a channel that is absent has none. *)
Definition log_of (live : liveMessages) (channel : string) : list msgPost :=
  match live !! channel with
  | Some subject => Messages subject
  | None => []
  end.

(** ** Vocabulary of the properties *)

(** The subject a write of [channel] works on: the one in the map, or the
    fresh [&subject{}] that [postMessage] installs. *)
Definition subject_of (live : liveMessages) (channel : string) : subject :=
  default (mkSubject [] "") (live !! channel).

(** The message [postMessage] stores for a decoded body [mesg] when the log
    holds [n] messages: only [Id] is overwritten. *)
Definition stored (n : nat) (mesg : msgPost) : msgPost :=
  mkMsgPost (Z.of_nat n + 1) (Username mesg) (Message mesg) (Threads mesg).

(** The message [postThread] writes back at the index it was given. *)
Definition threaded (m : msgPost) (mesg : Thread) : msgPost :=
  mkMsgPost (Id m) (Username m) (Message m) (Threads m ++ [mesg]).

(** The id a request was answered with, when the request is a post of a
    message to [channel] that was answered 200. *)
Definition assigned (channel : string) (e : request * outcome) : option Z :=
  match e with
  | (POST_messages c _, Respond status (IdOf id)) =>
      if decide (c = channel ∧ status = StatusOK) then Some id else None
  | _ => None
  end.

(** The ids of the successful appends to [channel] in a history, in order. *)
Definition assigned_ids (channel : string) (h : list (request * outcome)) : list Z :=
  omap (assigned channel) h.

(** The ids of a log are [1, 2, .., length]. *)
Definition numbered (l : list msgPost) : Prop :=
  Id <$> l = seqZ 1 (Z.of_nat (length l)).

(** What every state between two requests satisfies for a channel. *)
Definition channel_ok (live : liveMessages) (channel : string) : Prop :=
  numbered (log_of live channel) ∧
  (is_Some (live !! channel) → log_of live channel ≠ []).

(** The number of successful appends to [channel] in a run. *)
Definition appends (channel : string) (reqs : list request) : nat :=
  length (assigned_ids channel (history reqs)).

(** The map after one message was posted to channel [x], and after two. *)
Definition one_message : liveMessages :=
  state_after [POST_messages "x" (Decoded (mkMsgPost 0 "a" "hi" []))].

Definition two_messages : liveMessages :=
  state_after [POST_messages "x" (Decoded (mkMsgPost 0 "a" "hi" []));
               POST_messages "x" (Decoded (mkMsgPost 0 "b" "yo" []))].

(** Two messages in channel [x], and then a thread posted to number 0. *)
Definition thread_at_zero : liveMessages :=
  state_after [POST_messages "x" (Decoded (mkMsgPost 0 "a" "hi" []));
               POST_messages "x" (Decoded (mkMsgPost 0 "b" "yo" []));
               POST_thread "x" "0" (Decoded (mkThread "c" "first"))].

(** The character of a decimal digit. *)
Definition digit_char (d : Z) : ascii := ascii_of_nat (48 + Z.to_nat d).

(** ** Further vocabulary: what a request carries and how logs grow *)

(** The number a request carries in its query parameter or its path. *)
Definition number_of (r : request) : option Z :=
  match r with
  | GET_messages _ key => last_id key
  | GET_thread _ message_id => Go.Atoi message_id
  | POST_thread _ message_id _ => Go.Atoi message_id
  | POST_messages _ _ => None
  end.

(** The key of [liveMessages] a request works on: the reads lower the name,
    the posts take it as it is. *)
Definition key_of (r : request) : string :=
  match r with
  | GET_messages channel _ => Go.ToLower channel
  | GET_thread channel _ => Go.ToLower channel
  | POST_messages channel _ => channel
  | POST_thread channel _ _ => channel
  end.

(** A later version [m'] of a stored message [m]: same id, username and
    message, and the threads of [m] followed by the threads added since. *)
Definition grown (m m' : msgPost) : Prop :=
  Id m' = Id m ∧ Username m' = Username m ∧ Message m' = Message m ∧
  ∃ added, Threads m' = Threads m ++ added.

(** A later version [l'] of a log [l]: the messages of [l], each one grown,
    followed by the messages added since. *)
Definition log_grown (l l' : list msgPost) : Prop :=
  ∃ kept added, l' = kept ++ added ∧ Forall2 grown l kept.

(** ** The two sections of [postMessage], and requests that overlap *)

(** A post of a message works on the map in two sections that another
    request can come between.  Lines 127-137: when the channel has no
    subject, an empty one is put in the map, under [globalMutex]. *)
Definition postMessage_create (channel : string) (live : liveMessages) : liveMessages :=
  match live !! channel with
  | None => <[channel := mkSubject [] ""]> live
  | Some _ => live
  end.

(** Lines 138-150: under the lock of the channel, the id is taken from the
    length of the log and the message is appended. *)
Definition postMessage_append (channel : string) (mesg : msgPost) (live : liveMessages)
  : outcome * liveMessages :=
  match live !! channel with
  | Some subject =>
      let id := (Z.of_nat (length (Messages subject)) + 1)%Z in
      let mesg := mkMsgPost id (Username mesg) (Message mesg) (Threads mesg) in
      (respondJSON StatusOK (IdOf id),
       <[channel := mkSubject (Messages subject ++ [mesg]) (title subject)]> live)
  | None => (Panic, live)
  end.

(** What happens on the server, one lock-protected section at a time: a
    request is served from its first to its last line; or a post of a
    message, routed and with a filled body, runs its first section; or the
    [n]-th of the posts that have run their first section only runs its
    second one. *)
Inductive event :=
  | Whole (r : request)
  | Create (channel : string) (mesg : msgPost)
  | Append (n : nat).

(** The map, and the posts that are between their two sections. *)
Record server := mkServer {
  store : liveMessages;
  in_flight : list (string * msgPost);
}.

Definition fire (e : event) (s : server) : server :=
  match e with
  | Whole r => mkServer (serve r (store s)).2 (in_flight s)
  | Create channel mesg =>
      if routeChannel channel && filled (Username mesg) (Message mesg) then
        mkServer (postMessage_create channel (store s)) (in_flight s ++ [(channel, mesg)])
      else s
  | Append n =>
      match in_flight s !! n with
      | Some (channel, mesg) =>
          mkServer (postMessage_append channel mesg (store s)).2 (delete n (in_flight s))
      | None => s
      end
  end.

Fixpoint interleave (es : list event) (s : server) : server :=
  match es with
  | [] => s
  | e :: es' => interleave es' (fire e s)
  end.

(** [main] starts with the empty map and no request under way. *)
Definition boot : server := mkServer ∅ [].

(** ** The earlier version of the server: two maps *)

(** The second [main.go] keeps the logs and the locks of the channels in two
    maps, [liveMessages map[string][]msgPost] and
    [liveRWMutex map[string]*sync.RWMutex]. *)
Module Legacy.

(** A [*sync.RWMutex] of the map; between two requests it is unlocked. *)
Inductive RWMutex := Unlocked.

Record globals := mkGlobals {
  liveMessages : gmap string (list msgPost);
  liveRWMutex : gmap string RWMutex;
}.

(** [liveMessages[channel]] read as a value: a missing key gives the nil
    slice. *)
Definition messages_of (g : globals) (channel : string) : list msgPost :=
  default [] (liveMessages g !! channel).

Definition getMessage (channel key : string) (g : globals) : outcome * globals :=
  let channel := Go.ToLower channel in
  match last_id key with
  | None => (respondJSON StatusBadRequest (Text "last_id should be an integer"), g)
  | Some id =>
      match liveRWMutex g !! channel with
      | Some _ =>
          match liveMessages g !! channel with
          | Some messages =>
              if bool_decide (Z.of_nat (length messages) ≤ id)%Z then
                (respondJSON StatusBadRequest (Text "No new message after last_id"), g)
              else
                match Go.slice_from messages id with
                | Some ms => (respondJSON StatusOK (MessagesOf ms), g)
                | None => (Panic, g)
                end
          | None =>
              (respondJSON StatusBadRequest (Text "Sorry No such channel exist!"), g)
          end
      | None => (respondJSON StatusBadRequest (Text "Upps No such channel exist!"), g)
      end
  end.

Definition getThreads (channel message_id : string) (g : globals) : outcome * globals :=
  let channel := Go.ToLower channel in
  match Go.Atoi message_id with
  | None => (respondJSON StatusBadRequest (Text "message_id should be an integer"), g)
  | Some id =>
      match liveRWMutex g !! channel with
      | Some _ =>
          match liveMessages g !! channel with
          | Some messages =>
              if bool_decide (Z.of_nat (length messages) ≤ id)%Z then
                (respondJSON StatusBadRequest (Text "No new message after last_id"), g)
              else
                match Go.index messages id with
                | Some m => (respondJSON StatusOK (ThreadsOf (Threads m)), g)
                | None => (Panic, g)
                end
          | None =>
              (respondJSON StatusBadRequest (Text "Sorry No such channel exist!"), g)
          end
      | None => (respondJSON StatusBadRequest (Text "Upps No such channel exist!"), g)
      end
  end.

Definition postMessage (channel : string) (body : decoded msgPost) (g : globals)
  : outcome * globals :=
  match body with
  | DecodeError err => (respondError StatusInternalServerError err, g)
  | Decoded mesg =>
      if filled (Username mesg) (Message mesg) then
        (* first time: create the lock of the channel *)
        let mutexes :=
          match liveRWMutex g !! channel with
          | None => <[channel := Unlocked]> (liveRWMutex g)
          | Some _ => liveRWMutex g
          end in
        let id := (Z.of_nat (length (messages_of g channel)) + 1)%Z in
        let mesg := mkMsgPost id (Username mesg) (Message mesg) (Threads mesg) in
        (respondJSON StatusOK (IdOf id),
         mkGlobals (<[channel := messages_of g channel ++ [mesg]]> (liveMessages g))
                   mutexes)
      else
        (respondJSON StatusBadRequest (Text "Empty username or message!"), g)
  end.

Definition postThread (channel message_id : string) (body : decoded Thread)
    (g : globals) : outcome * globals :=
  match Go.Atoi message_id with
  | None => (respondJSON StatusBadRequest (Text "message_id should be an integer"), g)
  | Some id =>
      match body with
      | DecodeError err => (respondError StatusInternalServerError err, g)
      | Decoded mesg =>
          if filled (ThreadUsername mesg) (ThreadMessage mesg) then
            match liveRWMutex g !! channel with
            | None =>
                (respondJSON StatusBadRequest (Text "Provided channel does not exist!"), g)
            | Some _ =>
                match Go.index (messages_of g channel) id with
                | Some m =>
                    let m := mkMsgPost (Id m) (Username m) (Message m) (Threads m ++ [mesg]) in
                    (respondJSON StatusOK (IdOf id),
                     mkGlobals (<[channel := <[Z.to_nat id := m]> (messages_of g channel)]>
                                  (liveMessages g))
                               (liveRWMutex g))
                | None => (Panic, g)
                end
            end
          else
            (respondJSON StatusBadRequest (Text "Empty username or message!"), g)
      end
  end.

(** The routes are those of the later version. *)
Definition serve (r : request) (g : globals) : outcome * globals :=
  match r with
  | GET_messages channel key =>
      if routeChannel channel then getMessage channel key g else (notFound, g)
  | POST_messages channel body =>
      if routeChannel channel then postMessage channel body g else (notFound, g)
  | GET_thread channel message_id =>
      if routeChannel channel && routeSegment message_id
      then getThreads channel message_id g else (notFound, g)
  | POST_thread channel message_id body =>
      if routeChannel channel && routeSegment message_id
      then postThread channel message_id body g else (notFound, g)
  end.

Fixpoint run (reqs : list request) (g : globals) : list (request * outcome) * globals :=
  match reqs with
  | [] => ([], g)
  | r :: reqs' =>
      let '(o, g') := serve r g in
      let '(log, g'') := run reqs' g' in
      ((r, o) :: log, g'')
  end.

(** [main] starts from two empty maps. *)
Definition start : globals := mkGlobals ∅ ∅.

Definition history (reqs : list request) : list (request * outcome) := (run reqs start).1.
Definition state_after (reqs : list request) : globals := (run reqs start).2.

(** The two sections of the earlier [postMessage].  Lines 368-377: when the
    channel has no lock, one is put in [liveRWMutex], under [globalMutex]. *)
Definition postMessage_create (channel : string) (g : globals) : globals :=
  match liveRWMutex g !! channel with
  | None => mkGlobals (liveMessages g) (<[channel := Unlocked]> (liveRWMutex g))
  | Some _ => g
  end.

(** Lines 378-390: under the lock of the channel (a missing lock is a nil
    pointer, whose [Lock] panics), the message is numbered and appended. *)
Definition postMessage_append (channel : string) (mesg : msgPost) (g : globals)
  : outcome * globals :=
  match liveRWMutex g !! channel with
  | Some _ =>
      let id := (Z.of_nat (length (messages_of g channel)) + 1)%Z in
      let mesg := mkMsgPost id (Username mesg) (Message mesg) (Threads mesg) in
      (respondJSON StatusOK (IdOf id),
       mkGlobals (<[channel := messages_of g channel ++ [mesg]]> (liveMessages g))
                 (liveRWMutex g))
  | None => (Panic, g)
  end.

(** The two maps, and the posts that are between their two sections. *)
Record server := mkServer {
  maps : globals;
  in_flight : list (string * msgPost);
}.

Definition fire (e : event) (s : server) : server :=
  match e with
  | Whole r => mkServer (serve r (maps s)).2 (in_flight s)
  | Create channel mesg =>
      if routeChannel channel && filled (Username mesg) (Message mesg) then
        mkServer (postMessage_create channel (maps s)) (in_flight s ++ [(channel, mesg)])
      else s
  | Append n =>
      match in_flight s !! n with
      | Some (channel, mesg) =>
          mkServer (postMessage_append channel mesg (maps s)).2 (delete n (in_flight s))
      | None => s
      end
  end.

Fixpoint interleave (es : list event) (s : server) : server :=
  match es with
  | [] => s
  | e :: es' => interleave es' (fire e s)
  end.

Definition boot : server := mkServer start [].

End Legacy.

(** The two maps that hold what a map of subjects holds. *)
Definition two_maps (live : liveMessages) : Legacy.globals :=
  Legacy.mkGlobals (Messages <$> live) ((λ _, Legacy.Unlocked) <$> live).

(** What the earlier version does where the later one gives [o]: the same,
    but for two texts, and for the index at or above the length that
    [postThread] did not test yet. *)
Definition legacy_of (o : outcome) : outcome :=
  match o with
  | Respond status (Text s) =>
      if decide (s = "Sorry No such channel exist!") then
        Respond status (Text "Upps No such channel exist!")
      else if decide (s = "No message for the provided id") then
        Respond status (Text "No new message after last_id")
      else if decide (s = "Provided messageId does not exist!") then Panic
      else o
  | _ => o
  end.

(** ** Go indexing and slicing *)

Section go_lists.
Context {A : Type}.
Implicit Types (l : list A) (i : Z).

Lemma index_in_range l i :
  (0 ≤ i < Z.of_nat (length l))%Z →
  ∃ x, Go.index l i = Some x ∧ l !! Z.to_nat i = Some x.
Proof.
  intros Hi. unfold Go.index. rewrite bool_decide_eq_false_2 by lia.
  destruct (lookup_lt_is_Some_2 l (Z.to_nat i)) as [x Hx]; [lia|]. eauto.
Qed.

Lemma index_Some l i x :
  Go.index l i = Some x →
  (0 ≤ i < Z.of_nat (length l))%Z ∧ l !! Z.to_nat i = Some x.
Proof.
  unfold Go.index. case_bool_decide; [done|]. intros Hx. split; [|done].
  apply lookup_lt_Some in Hx. lia.
Qed.

Lemma index_None l i :
  Go.index l i = None ↔ (i < 0 ∨ Z.of_nat (length l) ≤ i)%Z.
Proof.
  unfold Go.index. case_bool_decide.
  - split; [auto|done].
  - rewrite lookup_ge_None. lia.
Qed.

Lemma slice_from_in_range l i :
  (0 ≤ i ≤ Z.of_nat (length l))%Z →
  Go.slice_from l i = Some (drop (Z.to_nat i) l).
Proof. intros Hi. unfold Go.slice_from. by rewrite bool_decide_eq_false_2 by lia. Qed.

Lemma slice_from_None l i :
  Go.slice_from l i = None ↔ (i < 0 ∨ Z.of_nat (length l) < i)%Z.
Proof. unfold Go.slice_from. case_bool_decide; naive_solver. Qed.
End go_lists.

(** ** Lower case *)

Lemma lower_fixed c : Go.is_upper c = false → Go.lower c = c.
Proof. unfold Go.is_upper, Go.lower. by intros ->. Qed.

Lemma lower_moves c : Go.is_upper c = true → Go.lower c ≠ c.
Proof.
  unfold Go.is_upper, Go.lower. intros Hc. rewrite Hc.
  apply andb_prop in Hc as [H1%Nat.leb_le H2%Nat.leb_le].
  intros Heq. apply (f_equal nat_of_ascii) in Heq.
  rewrite nat_ascii_embedding in Heq by lia. lia.
Qed.

Lemma lower_not_upper c : Go.is_upper (Go.lower c) = false.
Proof.
  unfold Go.lower. destruct (Go.is_upper c) eqn:Hc; unfold Go.is_upper in *.
  - rewrite Hc. apply andb_prop in Hc as [H1%Nat.leb_le H2%Nat.leb_le].
    rewrite nat_ascii_embedding by lia.
    apply andb_false_intro2, Nat.leb_gt. lia.
  - by rewrite Hc.
Qed.

Lemma ToLower_fixed s : Go.has_upper s = false ↔ Go.ToLower s = s.
Proof.
  induction s as [|c s IH]; simpl; [done|].
  rewrite orb_false_iff, IH. split.
  - intros [Hc ->]. by rewrite lower_fixed.
  - intros [= Hc Hs]. split; [|done].
    destruct (Go.is_upper c) eqn:Hu; [|done]. by apply lower_moves in Hu.
Qed.

Lemma ToLower_moves s : Go.has_upper s = true ↔ Go.ToLower s ≠ s.
Proof. rewrite <- ToLower_fixed. by destruct (Go.has_upper s). Qed.

Lemma ToLower_has_upper s : Go.has_upper (Go.ToLower s) = false.
Proof. induction s; simpl; [done|]. by rewrite lower_not_upper, IHs. Qed.

Lemma ToLower_idemp s : Go.ToLower (Go.ToLower s) = Go.ToLower s.
Proof. apply ToLower_fixed, ToLower_has_upper. Qed.

(** The channel names that reach a handler are ASCII text, on which
    [Go.ToLower] is [strings.ToLower]. *)
Lemma routeChannel_ascii channel :
  routeChannel channel = true →
  allChars (λ c, (nat_of_ascii c <? 128)%nat) channel = true.
Proof.
  unfold routeChannel. intros [_ Hc]%andb_prop. clear -Hc.
  induction channel as [|c s IH]; [done|]. simpl in *.
  apply andb_prop in Hc as [Hc Hs]. rewrite (IH Hs), andb_true_r.
  apply Nat.ltb_lt. unfold channelChar in Hc.
  repeat match type of Hc with
         | (_ || _ = true) => apply orb_prop in Hc as [Hc|Hc]
         | (_ && _ = true) => apply andb_prop in Hc as [_ Hc%Nat.leb_le]
         | ((_ =? _)%nat = true) => apply Nat.eqb_eq in Hc
         end; lia.
Qed.

(** ** What one handler call does *)

Lemma log_of_subject live channel : log_of live channel = Messages (subject_of live channel).
Proof. unfold log_of, subject_of. by destruct (live !! channel). Qed.

Lemma log_of_insert live channel s : log_of (<[channel := s]> live) channel = Messages s.
Proof. unfold log_of. by rewrite lookup_insert_eq. Qed.

Lemma log_of_insert_ne live channel c s :
  channel ≠ c → log_of (<[channel := s]> live) c = log_of live c.
Proof. intros. unfold log_of. by rewrite lookup_insert_ne. Qed.

Lemma filled_true u m : filled u m = true ↔ u ≠ "" ∧ m ≠ "".
Proof. unfold filled. by rewrite andb_true_iff, !bool_decide_eq_true. Qed.

Lemma getMessage_state channel key live : (getMessage channel key live).2 = live.
Proof.
  unfold getMessage. destruct (last_id key); [|done].
  destruct (live !! _); [|done]. case_bool_decide; [done|].
  by destruct (Go.slice_from _ _).
Qed.

Lemma getThreads_state channel message_id live :
  (getThreads channel message_id live).2 = live.
Proof.
  unfold getThreads. destruct (Go.Atoi message_id); [|done].
  destruct (live !! _); [|done]. case_bool_decide; [done|].
  by destruct (Go.index _ _).
Qed.

Lemma postMessage_filled channel mesg live :
  filled (Username mesg) (Message mesg) = true →
  postMessage channel (Decoded mesg) live =
    (Respond StatusOK (IdOf (Z.of_nat (length (log_of live channel)) + 1)),
     <[channel := mkSubject
         (log_of live channel ++ [stored (length (log_of live channel)) mesg])
         (title (subject_of live channel))]> live).
Proof.
  intros Hf. unfold postMessage, log_of, subject_of, stored. rewrite Hf.
  destruct (live !! channel) as [s|] eqn:Hs; simpl.
  - by rewrite Hs.
  - by rewrite lookup_insert_eq, insert_insert_eq.
Qed.

Lemma postMessage_unfilled channel mesg live :
  filled (Username mesg) (Message mesg) = false →
  postMessage channel (Decoded mesg) live =
    (Respond StatusBadRequest (Text "Empty username or message!"), live).
Proof. intros Hf. unfold postMessage. by rewrite Hf. Qed.

(** [postThread] either leaves the map as it is and does not answer 200, or it
    was given an index inside the log and appends to the message there. *)
Lemma postThread_effect channel message_id body live :
  ((postThread channel message_id body live).2 = live ∧
   ∀ p, (postThread channel message_id body live).1 ≠ Respond StatusOK p) ∨
  (∃ id mesg s m,
     Go.Atoi message_id = Some id ∧ body = Decoded mesg ∧
     filled (ThreadUsername mesg) (ThreadMessage mesg) = true ∧
     live !! channel = Some s ∧
     (0 ≤ id < Z.of_nat (length (Messages s)))%Z ∧
     Messages s !! Z.to_nat id = Some m ∧
     postThread channel message_id body live =
       (Respond StatusOK (IdOf id),
        <[channel := mkSubject (<[Z.to_nat id := threaded m mesg]> (Messages s))
                               (title s)]> live)).
Proof.
  unfold postThread.
  destruct (Go.Atoi message_id) as [id|] eqn:Hid; [|by left].
  destruct body as [mesg|err]; [|by left].
  destruct (filled _ _) eqn:Hf; [|by left].
  destruct (live !! channel) as [s|] eqn:Hs; [|by left].
  case_bool_decide as Hlen; [by left|].
  destruct (Go.index (Messages s) id) as [m|] eqn:Hm; [|by left].
  right. apply index_Some in Hm as [Hr Hm]. by exists id, mesg, s, m.
Qed.

(** ** Runs: the ids handed out and the logs they leave *)

Lemma numbered_snoc (l : list msgPost) m :
  numbered l → Id m = (Z.of_nat (length l) + 1)%Z → numbered (l ++ [m]).
Proof.
  unfold numbered. intros Hl Hm.
  rewrite fmap_app, length_app, Hl. simpl.
  replace (length l + 1) with (S (length l)) by lia.
  rewrite seqZ_S, Hm. do 2 f_equal. lia.
Qed.

Lemma fmap_Id_threaded (l : list msgPost) (i : nat) m mesg :
  l !! i = Some m → Id <$> <[i := threaded m mesg]> l = Id <$> l.
Proof.
  intros Hm. rewrite list_fmap_insert. apply list_insert_id.
  by rewrite list_lookup_fmap, Hm.
Qed.

(** One request, seen from one channel: either it is a successful append to
    that channel, which adds one message with the next id at the end of the
    log, or the ids of the log stay as they are and the channel is not
    created. *)
Lemma serve_effect r live c :
  (∃ m, assigned c (r, (serve r live).1) = Some (Z.of_nat (length (log_of live c)) + 1)%Z ∧
        Id m = (Z.of_nat (length (log_of live c)) + 1)%Z ∧
        log_of (serve r live).2 c = log_of live c ++ [m]) ∨
  (assigned c (r, (serve r live).1) = None ∧
   Id <$> log_of (serve r live).2 c = Id <$> log_of live c ∧
   (is_Some ((serve r live).2 !! c) → is_Some (live !! c))).
Proof.
  destruct r as [channel key|channel body|channel message_id|channel message_id body];
    simpl.
  - right. destruct (routeChannel channel); [|done].
    by rewrite getMessage_state.
  - destruct (routeChannel channel); [|by right].
    destruct body as [mesg|err]; [|by right].
    destruct (filled (Username mesg) (Message mesg)) eqn:Hf.
    + rewrite postMessage_filled by done. simpl.
      destruct (decide (channel = c)) as [->|Hne].
      * left. exists (stored (length (log_of live c)) mesg).
        rewrite decide_True by auto. by rewrite log_of_insert.
      * right. rewrite decide_False by (by intros [? _]).
        by rewrite log_of_insert_ne, lookup_insert_ne.
    + rewrite postMessage_unfilled by done. by right.
  - right. destruct (_ && _); [|done]. by rewrite getThreads_state.
  - right. destruct (_ && _); [|done].
    split; [done|].
    destruct (postThread_effect channel message_id body live)
      as [[-> _]|(id & mesg & s & m & _ & _ & _ & Hs & _ & Hm & ->)]; [done|].
    simpl. destruct (decide (channel = c)) as [->|Hne].
    + rewrite log_of_insert. unfold log_of. rewrite Hs. simpl.
      split; [by apply fmap_Id_threaded|eauto].
    + by rewrite log_of_insert_ne, lookup_insert_ne.
Qed.

Lemma serve_channel_ok r live c :
  channel_ok live c → channel_ok (serve r live).2 c.
Proof.
  intros [Hn He]. unfold channel_ok, numbered in *.
  destruct (serve_effect r live c) as [(m & _ & Hm & ->)|(_ & Hids & Hs)].
  - split; [by apply numbered_snoc|]. intros _. by destruct (log_of live c).
  - rewrite <- (length_fmap Id), Hids, length_fmap. split; [done|].
    intros Hl%Hs%He Hnil. apply Hl.
    apply (f_equal length) in Hids. rewrite !length_fmap, Hnil in Hids.
    by destruct (log_of live c).
Qed.

Lemma assigned_ids_cons c e h :
  assigned_ids c (e :: h) =
    match assigned c e with
    | Some id => id :: assigned_ids c h
    | None => assigned_ids c h
    end.
Proof. done. Qed.

Lemma run_cons r reqs live :
  run (r :: reqs) live =
    (((r, (serve r live).1) :: (run reqs (serve r live).2).1),
     (run reqs (serve r live).2).2).
Proof. simpl. destruct (serve r live), (run reqs _). done. Qed.

(** A run from a state that is fine for [c]: the ids handed out for [c]
    continue the numbering of its log, and the log grows by as many
    messages. *)
Lemma run_channel reqs : ∀ live c,
  channel_ok live c →
  channel_ok (run reqs live).2 c ∧
  assigned_ids c (run reqs live).1 =
    seqZ (Z.of_nat (length (log_of live c)) + 1)
         (Z.of_nat (length (assigned_ids c (run reqs live).1))) ∧
  length (log_of (run reqs live).2 c) =
    length (log_of live c) + length (assigned_ids c (run reqs live).1).
Proof.
  induction reqs as [|r reqs IH]; intros live c Hok.
  - simpl. split; [done|]. split; [done|lia].
  - rewrite run_cons. cbn [fst snd].
    destruct (IH (serve r live).2 c (serve_channel_ok r live c Hok))
      as (Hok' & Hids & Hlen).
    split; [done|]. rewrite assigned_ids_cons.
    destruct (serve_effect r live c) as [(m & -> & Hm & Hlog)|(-> & Hl & _)].
    + rewrite Hlog, length_app in Hids, Hlen. simpl in *.
      split; [|lia].
      rewrite Nat2Z.inj_succ. rewrite seqZ_cons by lia. f_equal.
      rewrite Z.pred_succ. rewrite Hids at 1. f_equal. lia.
    + apply (f_equal length) in Hl. rewrite !length_fmap in Hl.
      by rewrite <- Hl.
Qed.

Lemma channel_ok_empty c : channel_ok ∅ c.
Proof.
  split; [done|]. rewrite lookup_empty. by intros [? ?].
Qed.

Lemma state_after_channel_ok reqs c : channel_ok (state_after reqs) c.
Proof. apply run_channel, channel_ok_empty. Qed.

(** ** Sequential ids *)

(** C1. Whatever requests were served (posts, reads and thread posts of any
    channel, in any order, accepted or not), if [N] of them were successful
    appends to a channel, then the ids in the log of that channel are
    [1; 2; ..; N] in log order, so without gap or repetition, and these are
    also the ids the [N] appends were answered with, in the order of the
    calls. *)
Theorem message_ids_contiguous reqs channel :
  Id <$> log_of (state_after reqs) channel = seqZ 1 (Z.of_nat (appends channel reqs)) ∧
  assigned_ids channel (history reqs) = seqZ 1 (Z.of_nat (appends channel reqs)) ∧
  length (log_of (state_after reqs) channel) = appends channel reqs ∧
  NoDup (Id <$> log_of (state_after reqs) channel).
Proof.
  unfold appends, state_after, history.
  destruct (run_channel reqs ∅ channel (channel_ok_empty channel))
    as ([Hn _] & Hids & Hlen).
  change (length (log_of ∅ channel)) with 0 in *. simpl in *.
  unfold numbered in Hn. rewrite Hlen in Hn.
  rewrite Hn. split; [done|]. split; [done|]. split; [done|]. apply NoDup_seqZ.
Qed.

(** ** Channels are created with their first message *)

(** When the requests are served one at a time, each from its first to
    its last line, a channel that is present in the map after them has at
    least one message in its log, and a read of it with [last_id] 0 (or
    without [last_id]) gives the whole log. *)
Theorem present_channel_not_empty reqs channel s :
  state_after reqs !! channel = Some s →
  1 ≤ length (Messages s) ∧
  ∀ name key, Go.ToLower name = channel → last_id key = Some 0%Z →
    (getMessage name key (state_after reqs)).1 = Respond StatusOK (MessagesOf (Messages s)).
Proof.
  intros Hs. destruct (state_after_channel_ok reqs channel) as [_ Hne].
  unfold log_of in Hne. rewrite Hs in Hne.
  assert (1 ≤ length (Messages s)) as Hlen.
  { destruct (Messages s); [by destruct Hne; eauto|simpl; lia]. }
  split; [done|]. intros name key <- Hkey.
  unfold getMessage. rewrite Hkey, Hs.
  rewrite bool_decide_eq_false_2 by lia.
  by rewrite slice_from_in_range by lia.
Qed.

Lemma present_channel_not_empty_witness :
  state_after [POST_messages "x" (Decoded (mkMsgPost 0 "a" "hi" []))] !! "x"
    = Some (mkSubject [mkMsgPost 1 "a" "hi" []] "") ∧
  (1 ≤ length (Messages (mkSubject [mkMsgPost 1 "a" "hi" []] "")) ∧
   ∀ name key, Go.ToLower name = "x" → last_id key = Some 0%Z →
     (getMessage name key
        (state_after [POST_messages "x" (Decoded (mkMsgPost 0 "a" "hi" []))])).1
     = Respond StatusOK (MessagesOf (Messages (mkSubject [mkMsgPost 1 "a" "hi" []] "")))).
Proof.
  assert (state_after [POST_messages "x" (Decoded (mkMsgPost 0 "a" "hi" []))] !! "x"
          = Some (mkSubject [mkMsgPost 1 "a" "hi" []] "")) as H by reflexivity.
  split; [exact H|]. exact (present_channel_not_empty _ _ _ H).
Defined.

(** ** Appending a message *)

(** What [postMessage] does with a body that it accepts.  For every map,
    every channel and every decoded body with a non-empty username and
    message, it answers 200 with the id [count_before + 1] and appends at the
    end of the log of the channel exactly one message, with that id, the
    given username and message, and whatever thread sequence the decoded
    body came with; the earlier messages stay in place unchanged, and so
    does every other channel. *)
Theorem postMessage_appends_one live channel mesg :
  Username mesg ≠ "" → Message mesg ≠ "" →
  (postMessage channel (Decoded mesg) live).1
    = Respond StatusOK (IdOf (Z.of_nat (length (log_of live channel)) + 1)) ∧
  log_of (postMessage channel (Decoded mesg) live).2 channel
    = log_of live channel ++
      [mkMsgPost (Z.of_nat (length (log_of live channel)) + 1)
                 (Username mesg) (Message mesg) (Threads mesg)] ∧
  ∀ c, c ≠ channel → (postMessage channel (Decoded mesg) live).2 !! c = live !! c.
Proof.
  intros Hu Hm. rewrite postMessage_filled by by apply filled_true.
  simpl. split; [done|]. split; [by rewrite log_of_insert|].
  intros c Hc. by rewrite lookup_insert_ne.
Qed.

Lemma postMessage_appends_one_witness :
  "b" ≠ "" ∧ "yo" ≠ "" ∧
  ((postMessage "x" (Decoded (mkMsgPost 0 "b" "yo" []))
      {["x" := mkSubject [mkMsgPost 1 "a" "hi" []] ""]}).1
     = Respond StatusOK
         (IdOf (Z.of_nat (length (log_of {["x" := mkSubject [mkMsgPost 1 "a" "hi" []] ""]} "x")) + 1)) ∧
   log_of (postMessage "x" (Decoded (mkMsgPost 0 "b" "yo" []))
      {["x" := mkSubject [mkMsgPost 1 "a" "hi" []] ""]}).2 "x"
     = log_of {["x" := mkSubject [mkMsgPost 1 "a" "hi" []] ""]} "x" ++
       [mkMsgPost (Z.of_nat (length (log_of {["x" := mkSubject [mkMsgPost 1 "a" "hi" []] ""]} "x")) + 1)
                  "b" "yo" []] ∧
   ∀ c, c ≠ "x" →
     (postMessage "x" (Decoded (mkMsgPost 0 "b" "yo" []))
        {["x" := mkSubject [mkMsgPost 1 "a" "hi" []] ""]}).2 !! c
     = ({["x" := mkSubject [mkMsgPost 1 "a" "hi" []] ""]} : liveMessages) !! c).
Proof.
  assert ("b" ≠ "") as Hu by discriminate.
  assert ("yo" ≠ "") as Hm by discriminate.
  split; [exact Hu|]. split; [exact Hm|].
  exact (postMessage_appends_one
           {["x" := mkSubject [mkMsgPost 1 "a" "hi" []] ""]} "x"
           (mkMsgPost 0 "b" "yo" []) Hu Hm).
Defined.

(** A body that comes with a thread sequence is stored with it, not with an
    empty one. *)
Lemma postMessage_keeps_decoded_threads :
  "a" ≠ "" ∧ "hi" ≠ "" ∧
  log_of (postMessage "x" (Decoded (mkMsgPost 0 "a" "hi" [mkThread "c" "reply"])) ∅).2 "x"
    ≠ log_of ∅ "x" ++ [mkMsgPost (Z.of_nat (length (log_of ∅ "x")) + 1) "a" "hi" []].
Proof. split; [done|]. split; [done|]. vm_compute. discriminate. Qed.

(** ** Reads *)

(** C8. The two reads return the map they were given, whatever it is: no
    channel is added and no log or thread sequence changes.  When the channel
    a read looks up is absent from the map, and in particular when no message
    was ever posted to it, the read answers "Sorry No such channel exist!"
    and the channel is still absent afterwards. *)
Theorem reads_create_nothing live reqs channel key message_id :
  ((getMessage channel key live).2 = live ∧
   (getThreads channel message_id live).2 = live) ∧
  (live !! Go.ToLower channel = None →
     (is_Some (last_id key) →
        (getMessage channel key live).1
          = Respond StatusBadRequest (Text "Sorry No such channel exist!")) ∧
     (is_Some (Go.Atoi message_id) →
        (getThreads channel message_id live).1
          = Respond StatusBadRequest (Text "Sorry No such channel exist!")) ∧
     (getMessage channel key live).2 !! Go.ToLower channel = None ∧
     (getThreads channel message_id live).2 !! Go.ToLower channel = None) ∧
  (appends (Go.ToLower channel) reqs = 0 →
     state_after reqs !! Go.ToLower channel = None).
Proof.
  split; [by rewrite getMessage_state, getThreads_state|]. split.
  - intros Hnone. rewrite getMessage_state, getThreads_state.
    unfold getMessage, getThreads. rewrite Hnone.
    split; [by intros [id ->]|]. split; [by intros [id ->]|]. done.
  - unfold appends, state_after, history. intros Hz.
    destruct (run_channel reqs ∅ (Go.ToLower channel) (channel_ok_empty _))
      as ([_ Hne] & _ & Hlen).
    rewrite Hz in Hlen. change (length (log_of ∅ _)) with 0 in Hlen.
    destruct ((run reqs ∅).2 !! Go.ToLower channel) as [s|] eqn:Hs; [|done].
    destruct Hne; [eauto|]. by apply nil_length_inv.
Qed.

Lemma reads_create_nothing_witness :
  state_after [POST_messages "Alpha" (Decoded (mkMsgPost 0 "a" "hi" []))]
    !! Go.ToLower "Alpha" = None ∧
  is_Some (last_id "") ∧ is_Some (Go.Atoi "1") ∧
  appends (Go.ToLower "Alpha")
    [POST_messages "Alpha" (Decoded (mkMsgPost 0 "a" "hi" []))] = 0 ∧
  (getMessage "Alpha" ""
     (state_after [POST_messages "Alpha" (Decoded (mkMsgPost 0 "a" "hi" []))])).1
    = Respond StatusBadRequest (Text "Sorry No such channel exist!") ∧
  (getThreads "Alpha" "1"
     (state_after [POST_messages "Alpha" (Decoded (mkMsgPost 0 "a" "hi" []))])).1
    = Respond StatusBadRequest (Text "Sorry No such channel exist!").
Proof.
  assert (state_after [POST_messages "Alpha" (Decoded (mkMsgPost 0 "a" "hi" []))]
            !! Go.ToLower "Alpha" = None) as Hnone by reflexivity.
  assert (is_Some (last_id "")) as Hkey by (exists 0%Z; reflexivity).
  assert (is_Some (Go.Atoi "1")) as Hid by (exists 1%Z; reflexivity).
  assert (appends (Go.ToLower "Alpha")
            [POST_messages "Alpha" (Decoded (mkMsgPost 0 "a" "hi" []))] = 0)
    as Hz by reflexivity.
  split; [exact Hnone|]. split; [exact Hkey|]. split; [exact Hid|].
  split; [exact Hz|].
  destruct (reads_create_nothing
              (state_after [POST_messages "Alpha" (Decoded (mkMsgPost 0 "a" "hi" []))])
              [POST_messages "Alpha" (Decoded (mkMsgPost 0 "a" "hi" []))]
              "Alpha" "" "1") as (_ & Habs & _).
  destruct (Habs Hnone) as (Hm & Ht & _).
  split; [exact (Hm Hkey)|exact (Ht Hid)].
Defined.

(** *** The messages after an id *)

Lemma seqZ_sorted m n : StronglySorted Z.lt (seqZ m n).
Proof.
  destruct (decide (n ≤ 0)%Z) as [Hn|Hn]; [rewrite seqZ_nil by done; constructor|].
  rewrite <- (Z2Nat.id n) by lia. generalize (Z.to_nat n) as k. clear n Hn.
  intros k. revert m. induction k as [|k IH]; intros m.
  - rewrite seqZ_nil by done. constructor.
  - rewrite seqZ_cons by lia. rewrite Nat2Z.inj_succ, Z.pred_succ.
    constructor; [apply IH|]. apply Forall_seqZ. lia.
Qed.

Lemma numbered_lookup (l : list msgPost) (i : nat) m :
  numbered l → l !! i = Some m → Id m = (Z.of_nat i + 1)%Z.
Proof.
  unfold numbered. intros Hn Hm.
  assert ((Id <$> l) !! i = Some (Id m)) as Hi by by rewrite list_lookup_fmap, Hm.
  rewrite Hn in Hi. apply lookup_seqZ in Hi. lia.
Qed.

Lemma filter_all {A} (P : A → Prop) `{!∀ x, Decision (P x)} (l : list A) :
  Forall P l → filter P l = l.
Proof.
  induction 1 as [|x l Hx _ IH]; [done|]. by rewrite filter_cons_True, IH.
Qed.

Lemma filter_none {A} (P : A → Prop) `{!∀ x, Decision (P x)} (l : list A) :
  Forall (λ x, ¬ P x) l → filter P l = [].
Proof.
  induction 1 as [|x l Hx _ IH]; [done|]. by rewrite filter_cons_False, IH.
Qed.

(** In a numbered log, the messages from index [n] on are those with an id
    above [n]. *)
Lemma numbered_drop (l : list msgPost) (n : nat) :
  numbered l →
  drop n l = filter (λ m, (Z.of_nat n < Id m)%Z) l.
Proof.
  intros Hn. rewrite <- (take_drop n l) at 2. rewrite filter_app.
  rewrite filter_none, filter_all; [done| |].
  - apply Forall_lookup. intros i m. rewrite lookup_drop. intros Hm.
    apply (numbered_lookup _ _ _ Hn) in Hm. lia.
  - apply Forall_lookup. intros i m Hm.
    apply lookup_take_Some in Hm as [Hm Hi].
    apply (numbered_lookup _ _ _ Hn) in Hm. lia.
Qed.

Lemma numbered_sorted (l : list msgPost) (n : nat) :
  numbered l → StronglySorted Z.lt (Id <$> drop n l).
Proof.
  intros Hn. rewrite fmap_drop, Hn.
  apply (StronglySorted_app_1_r _ (take n (seqZ 1 (Z.of_nat (length l))))).
  rewrite take_drop. apply seqZ_sorted.
Qed.

(** C3. In a state reached by serving requests, for a channel that the read
    finds in the map, with [count] messages: when [0 <= afterId < count] the
    read answers 200 with the suffix of the log from index [afterId], which
    is the list of the messages whose id is greater than [afterId], in
    ascending order of id; [afterId = 0] gives the whole log; and the read
    answers "No new message after last_id" exactly when [afterId >= count]. *)
Theorem getMessage_since reqs channel key afterId s :
  state_after reqs !! Go.ToLower channel = Some s →
  last_id key = Some afterId →
  ((0 ≤ afterId < Z.of_nat (length (Messages s)))%Z →
     getMessage channel key (state_after reqs)
       = (Respond StatusOK (MessagesOf (drop (Z.to_nat afterId) (Messages s))),
          state_after reqs) ∧
     drop (Z.to_nat afterId) (Messages s)
       = filter (λ m, (afterId < Id m)%Z) (Messages s) ∧
     StronglySorted Z.lt (Id <$> drop (Z.to_nat afterId) (Messages s))) ∧
  (afterId = 0%Z →
     (getMessage channel key (state_after reqs)).1
       = Respond StatusOK (MessagesOf (Messages s))) ∧
  ((getMessage channel key (state_after reqs)).1
     = Respond StatusBadRequest (Text "No new message after last_id")
   ↔ (Z.of_nat (length (Messages s)) ≤ afterId)%Z).
Proof.
  intros Hs Hkey.
  destruct (state_after_channel_ok reqs (Go.ToLower channel)) as [Hn Hne].
  unfold log_of in Hn, Hne. rewrite Hs in Hn, Hne.
  unfold getMessage. rewrite Hkey, Hs. split; [|split].
  - intros Hr. rewrite bool_decide_eq_false_2 by lia.
    rewrite slice_from_in_range by lia. split; [done|]. split.
    + rewrite (numbered_drop _ _ Hn). by rewrite Z2Nat.id by lia.
    + by apply numbered_sorted.
  - intros ->. destruct (Messages s) eqn:Hl; [by destruct Hne; eauto|].
    rewrite bool_decide_eq_false_2 by (simpl; lia).
    by rewrite slice_from_in_range by (simpl; lia).
  - case_bool_decide as Hlen; [done|]. split; [|done].
    by destruct (Go.slice_from _ _).
Qed.

Lemma getMessage_since_witness :
  state_after [POST_messages "x" (Decoded (mkMsgPost 0 "a" "hi" []));
               POST_messages "x" (Decoded (mkMsgPost 0 "b" "yo" []))]
    !! Go.ToLower "x"
    = Some (mkSubject [mkMsgPost 1 "a" "hi" []; mkMsgPost 2 "b" "yo" []] "") ∧
  last_id "1" = Some 1%Z ∧
  (0 ≤ 1 < Z.of_nat (length [mkMsgPost 1 "a" "hi" []; mkMsgPost 2 "b" "yo" []]))%Z ∧
  getMessage "x" "1"
    (state_after [POST_messages "x" (Decoded (mkMsgPost 0 "a" "hi" []));
                  POST_messages "x" (Decoded (mkMsgPost 0 "b" "yo" []))])
    = (Respond StatusOK (MessagesOf [mkMsgPost 2 "b" "yo" []]),
       state_after [POST_messages "x" (Decoded (mkMsgPost 0 "a" "hi" []));
                    POST_messages "x" (Decoded (mkMsgPost 0 "b" "yo" []))]).
Proof.
  assert (state_after [POST_messages "x" (Decoded (mkMsgPost 0 "a" "hi" []));
                       POST_messages "x" (Decoded (mkMsgPost 0 "b" "yo" []))]
            !! Go.ToLower "x"
          = Some (mkSubject [mkMsgPost 1 "a" "hi" []; mkMsgPost 2 "b" "yo" []] ""))
    as Hs by reflexivity.
  assert (last_id "1" = Some 1%Z) as Hkey by reflexivity.
  assert (0 ≤ 1 < Z.of_nat (length [mkMsgPost 1 "a" "hi" []; mkMsgPost 2 "b" "yo" []]))%Z
    as Hr by (simpl; lia).
  split; [exact Hs|]. split; [exact Hkey|]. split; [exact Hr|].
  destruct (getMessage_since _ _ _ _ _ Hs Hkey) as (Hin & _ & _).
  destruct (Hin Hr) as (Hget & _ & _). exact Hget.
Defined.

(** ** Threads are addressed by index, not by id *)

(** X12. What [getThreads] does with the number it is given, in a state reached by
    serving requests: it is used as an index into the log.  An index at or
    above the length is refused, a negative one panics, and an index [id]
    inside the log gives the threads of the message whose id is [id + 1]. *)
Lemma getThreads_by_index reqs channel message_id id s :
  state_after reqs !! Go.ToLower channel = Some s →
  Go.Atoi message_id = Some id →
  ((Z.of_nat (length (Messages s)) ≤ id)%Z →
     (getThreads channel message_id (state_after reqs)).1
       = Respond StatusBadRequest (Text "No message for the provided id")) ∧
  ((id < 0)%Z → (getThreads channel message_id (state_after reqs)).1 = Panic) ∧
  ((0 ≤ id < Z.of_nat (length (Messages s)))%Z →
     ∃ m, Messages s !! Z.to_nat id = Some m ∧ Id m = (id + 1)%Z ∧
          (getThreads channel message_id (state_after reqs)).1
            = Respond StatusOK (ThreadsOf (Threads m))).
Proof.
  intros Hs Hid.
  destruct (state_after_channel_ok reqs (Go.ToLower channel)) as [Hn _].
  unfold log_of in Hn. rewrite Hs in Hn.
  unfold getThreads. rewrite Hid, Hs. split; [|split]; intros Hr.
  - by rewrite bool_decide_eq_true_2.
  - rewrite bool_decide_eq_false_2 by lia.
    by rewrite (proj2 (index_None _ _)) by lia.
  - rewrite bool_decide_eq_false_2 by lia.
    destruct (index_in_range (Messages s) id Hr) as (m & -> & Hm).
    exists m. split; [done|]. split; [|done].
    rewrite (numbered_lookup _ _ _ Hn Hm). lia.
Qed.

(** The same for [postThread], on any map: refused at or above the length,
    a panic below zero, and otherwise the thread goes to the message at that
    index. *)
Lemma postThread_by_index live channel message_id id mesg s :
  live !! channel = Some s →
  Go.Atoi message_id = Some id →
  filled (ThreadUsername mesg) (ThreadMessage mesg) = true →
  ((Z.of_nat (length (Messages s)) ≤ id)%Z →
     postThread channel message_id (Decoded mesg) live
       = (Respond StatusBadRequest (Text "Provided messageId does not exist!"), live)) ∧
  ((id < 0)%Z → postThread channel message_id (Decoded mesg) live = (Panic, live)) ∧
  ((0 ≤ id < Z.of_nat (length (Messages s)))%Z →
     ∃ m, Messages s !! Z.to_nat id = Some m ∧
          postThread channel message_id (Decoded mesg) live
            = (Respond StatusOK (IdOf id),
               <[channel := mkSubject (<[Z.to_nat id := threaded m mesg]> (Messages s))
                                      (title s)]> live)).
Proof.
  intros Hs Hid Hf. unfold postThread. rewrite Hid, Hf, Hs.
  split; [|split]; intros Hr.
  - by rewrite bool_decide_eq_true_2.
  - rewrite bool_decide_eq_false_2 by lia.
    by rewrite (proj2 (index_None _ _)) by lia.
  - rewrite bool_decide_eq_false_2 by lia.
    destruct (index_in_range (Messages s) id Hr) as (m & -> & Hm).
    by exists m.
Qed.

(** C4 (the code departs from it). Channel [x] holds one message, with id 1.
    Asked for the threads of message 1, [getThreads] answers that there is no
    such message; asked for those of message 0, which does not exist, it
    answers 200.  With two messages of which the one with id 1 has a thread,
    asking for the threads of message 1 gives the empty thread sequence of
    the message with id 2: the number is taken as an index into the log. *)
Theorem getThreads_refuses_existing_id :
  log_of one_message "x" = [mkMsgPost 1 "a" "hi" []] ∧
  getThreads "x" "1" one_message
    = (Respond StatusBadRequest (Text "No message for the provided id"), one_message) ∧
  getThreads "x" "0" one_message = (Respond StatusOK (ThreadsOf []), one_message) ∧
  log_of thread_at_zero "x"
    = [mkMsgPost 1 "a" "hi" [mkThread "c" "first"]; mkMsgPost 2 "b" "yo" []] ∧
  (getThreads "x" "1" thread_at_zero).1 = Respond StatusOK (ThreadsOf []).
Proof. repeat split; reflexivity. Qed.

(** C5 (the code departs from it). Channel [x] holds one message, with id 1.
    A thread posted to message 1 is refused with "Provided messageId does not
    exist!" and nothing is stored.  With two messages, a thread posted to
    message 1 is accepted and lands in the thread sequence of the message
    with id 2, while that of message 1 stays empty. *)
Theorem postThread_refuses_existing_id :
  log_of one_message "x" = [mkMsgPost 1 "a" "hi" []] ∧
  postThread "x" "1" (Decoded (mkThread "c" "reply")) one_message
    = (Respond StatusBadRequest (Text "Provided messageId does not exist!"), one_message) ∧
  log_of two_messages "x" = [mkMsgPost 1 "a" "hi" []; mkMsgPost 2 "b" "yo" []] ∧
  (postThread "x" "1" (Decoded (mkThread "c" "reply")) two_messages).1
    = Respond StatusOK (IdOf 1) ∧
  log_of (postThread "x" "1" (Decoded (mkThread "c" "reply")) two_messages).2 "x"
    = [mkMsgPost 1 "a" "hi" []; mkMsgPost 2 "b" "yo" [mkThread "c" "reply"]].
Proof. repeat split; reflexivity. Qed.

(** C6 (the code departs from it). [-1] is an integer that [strconv.Atoi]
    accepts, and on the existing channel [x] both [getThreads] and
    [postThread] pass the test [id >= len(..)] with it and then index the
    log out of bounds: the handler panics instead of answering. *)
Theorem negative_message_id_panics :
  Go.Atoi "-1" = Some (-1)%Z ∧
  is_Some (one_message !! "x") ∧
  getThreads "x" "-1" one_message = (Panic, one_message) ∧
  postThread "x" "-1" (Decoded (mkThread "c" "reply")) one_message
    = (Panic, one_message).
Proof. split; [reflexivity|]. split; [by eexists|]. split; reflexivity. Qed.

(** ** Channel names: lower case on reads only *)

Lemma getMessage_lowers channel key live :
  getMessage channel key live = getMessage (Go.ToLower channel) key live.
Proof. unfold getMessage. by rewrite ToLower_idemp. Qed.

Lemma getThreads_lowers channel message_id live :
  getThreads channel message_id live = getThreads (Go.ToLower channel) message_id live.
Proof. unfold getThreads. by rewrite ToLower_idemp. Qed.

(** C7 (as amended). The reads look the channel up under its lower-case
    name; the writes use the name as it is: [postMessage] stores the message
    under the verbatim name and touches no other key, and [postThread] finds
    no channel when only another spelling of the name is in the map.  So
    after a message was posted under a name with an upper-case letter, a read
    with that same name is answered "Sorry No such channel exist!" whenever
    the map holds no channel under the lower-case name; and after a message
    was posted under a name without upper-case letter, the read with that
    name gives the log with the new message at its end. *)
Theorem channel_case_asymmetry live channel mesg key message_id reply :
  Username mesg ≠ "" → Message mesg ≠ "" →
  (getMessage channel key live = getMessage (Go.ToLower channel) key live ∧
   getThreads channel message_id live
     = getThreads (Go.ToLower channel) message_id live) ∧
  (log_of (postMessage channel (Decoded mesg) live).2 channel
     = log_of live channel ++ [stored (length (log_of live channel)) mesg] ∧
   (∀ c, c ≠ channel → (postMessage channel (Decoded mesg) live).2 !! c = live !! c) ∧
   (live !! channel = None → is_Some (Go.Atoi message_id) →
    filled (ThreadUsername reply) (ThreadMessage reply) = true →
      postThread channel message_id (Decoded reply) live
        = (Respond StatusBadRequest (Text "Provided channel does not exist!"), live))) ∧
  (Go.has_upper channel = true → live !! Go.ToLower channel = None →
   is_Some (last_id key) →
     (getMessage channel key (postMessage channel (Decoded mesg) live).2).1
       = Respond StatusBadRequest (Text "Sorry No such channel exist!")) ∧
  (Go.has_upper channel = false → last_id key = Some 0%Z →
     (getMessage channel key (postMessage channel (Decoded mesg) live).2).1
       = Respond StatusOK
           (MessagesOf (log_of live channel ++ [stored (length (log_of live channel)) mesg]))).
Proof.
  intros Hu Hm.
  assert (filled (Username mesg) (Message mesg) = true) as Hf by by apply filled_true.
  split; [split; [apply getMessage_lowers|apply getThreads_lowers]|].
  rewrite postMessage_filled by done. simpl. split; [|split].
  - split; [by rewrite log_of_insert|]. split.
    + intros c Hc. by rewrite lookup_insert_ne.
    + intros Hnone [id Hid] Hr. unfold postThread. by rewrite Hid, Hr, Hnone.
  - intros Hup%ToLower_moves Hnone [id Hid].
    unfold getMessage. rewrite Hid. by rewrite lookup_insert_ne, Hnone.
  - intros Hlow%ToLower_fixed Hid.
    unfold getMessage. rewrite Hid, Hlow, lookup_insert_eq. simpl.
    rewrite bool_decide_eq_false_2 by (rewrite length_app; simpl; lia).
    by rewrite slice_from_in_range by lia.
Qed.

Lemma channel_case_asymmetry_witness :
  "a" ≠ "" ∧ "hi" ≠ "" ∧
  Go.has_upper "Alpha" = true ∧ (∅ : liveMessages) !! Go.ToLower "Alpha" = None ∧
  is_Some (last_id "") ∧
  Go.has_upper "alpha" = false ∧ last_id "" = Some 0%Z ∧
  (∅ : liveMessages) !! "Alpha" = None ∧ is_Some (Go.Atoi "0") ∧
  filled (ThreadUsername (mkThread "c" "reply")) (ThreadMessage (mkThread "c" "reply")) = true ∧
  (getMessage "Alpha" "" (postMessage "Alpha" (Decoded (mkMsgPost 0 "a" "hi" [])) ∅).2).1
    = Respond StatusBadRequest (Text "Sorry No such channel exist!") ∧
  (getMessage "alpha" "" (postMessage "alpha" (Decoded (mkMsgPost 0 "a" "hi" [])) ∅).2).1
    = Respond StatusOK
        (MessagesOf (log_of ∅ "alpha" ++ [stored (length (log_of ∅ "alpha")) (mkMsgPost 0 "a" "hi" [])])) ∧
  postThread "Alpha" "0" (Decoded (mkThread "c" "reply")) ∅
    = (Respond StatusBadRequest (Text "Provided channel does not exist!"), ∅).
Proof.
  assert ("a" ≠ "") as Hu by discriminate.
  assert ("hi" ≠ "") as Hm by discriminate.
  assert (is_Some (last_id "")) as Hkey by (exists 0%Z; reflexivity).
  assert (is_Some (Go.Atoi "0")) as Hid by (exists 0%Z; reflexivity).
  destruct (channel_case_asymmetry ∅ "Alpha" (mkMsgPost 0 "a" "hi" []) "" "0"
              (mkThread "c" "reply") Hu Hm) as (_ & (_ & _ & Hthread) & Hupper & _).
  destruct (channel_case_asymmetry ∅ "alpha" (mkMsgPost 0 "a" "hi" []) "" "0"
              (mkThread "c" "reply") Hu Hm) as (_ & _ & _ & Hlower).
  split; [exact Hu|]. split; [exact Hm|]. split; [reflexivity|].
  split; [reflexivity|]. split; [exact Hkey|]. split; [reflexivity|].
  split; [reflexivity|]. split; [reflexivity|]. split; [exact Hid|].
  split; [reflexivity|].
  split; [exact (Hupper eq_refl eq_refl Hkey)|].
  split; [exact (Hlower eq_refl eq_refl)|].
  exact (Hthread eq_refl Hid eq_refl).
Defined.

(** C7 as it was stated fails: when the lower-case name is itself a channel
    of the map, the read with the upper-case name does not answer "no such
    channel"; it answers with the log of that other channel. *)
Lemma uppercase_read_finds_lowercase_channel :
  Go.has_upper "Alpha" = true ∧
  (getMessage "Alpha" ""
     (postMessage "Alpha" (Decoded (mkMsgPost 0 "b" "yo" []))
        (state_after [POST_messages "alpha" (Decoded (mkMsgPost 0 "a" "hi" []))])).2).1
    = Respond StatusOK (MessagesOf [mkMsgPost 1 "a" "hi" []]) ∧
  (getMessage "Alpha" ""
     (postMessage "Alpha" (Decoded (mkMsgPost 0 "b" "yo" []))
        (state_after [POST_messages "alpha" (Decoded (mkMsgPost 0 "a" "hi" []))])).2).1
    ≠ Respond StatusBadRequest (Text "Sorry No such channel exist!").
Proof. split; [reflexivity|]. split; [reflexivity|]. vm_compute. discriminate. Qed.

(** ** Every [int] can be supplied *)

(** The statements above speak of the number a path segment or a query
    parameter parses to.  Every 64-bit integer is such a number. *)

Lemma digit_digit_char d : (0 ≤ d < 10)%Z → Go.digit (digit_char d) = Some d.
Proof.
  intros Hd. unfold Go.digit, digit_char.
  rewrite nat_ascii_embedding by lia.
  replace ((48 <=? 48 + Z.to_nat d)%nat) with true by (symmetry; apply Nat.leb_le; lia).
  replace ((48 + Z.to_nat d <=? 57)%nat) with true by (symmetry; apply Nat.leb_le; lia).
  cbn [andb]. f_equal. lia.
Qed.

Lemma digits_snoc s : ∀ acc v c d,
  Go.digits acc s = Some v → Go.digit c = Some d →
  Go.digits acc (s +:+ String c "") = Some (v * 10 + d)%Z.
Proof.
  induction s as [|c' s IH]; intros acc v c d Hs Hc; simpl in *.
  - injection Hs as <-. by rewrite Hc.
  - destruct (Go.digit c'); [|done]. by apply IH.
Qed.

Lemma unsigned_digit c s d :
  Go.digit c = Some d → Go.Atoi (String c s) = n ← Go.unsigned (String c s); Go.in_int n.
Proof.
  intros Hc.
  assert (c ≠ "+"%char ∧ c ≠ "-"%char) as [Hp Hm].
  { split; intros ->; vm_compute in Hc; discriminate. }
  unfold Go.Atoi.
  destruct c as [[] [] [] [] [] [] [] []];
    first [reflexivity | exfalso; apply Hp; reflexivity | exfalso; apply Hm; reflexivity].
Qed.

Lemma digits_complete n :
  (0 ≤ n)%Z → ∃ c s d, Go.digit c = Some d ∧ Go.digits 0 (String c s) = Some n.
Proof.
  intros Hn. generalize Hn. pattern n. apply Z_lt_induction; [|exact Hn]. clear.
  intros n IH Hn. destruct (decide (n < 10)%Z) as [Hlt|Hge].
  - exists (digit_char n), "", n.
    rewrite digit_digit_char by lia. split; [done|].
    cbn [Go.digits]. by rewrite digit_digit_char by lia.
  - destruct (IH (n / 10)%Z) as (c & s & d & Hc & Hs).
    { split; [apply Z.div_pos; lia|apply Z.div_lt; lia]. }
    { apply Z.div_pos; lia. }
    exists c, (s +:+ String (digit_char (n mod 10)) ""), d. split; [done|].
    change (String c (s +:+ ?t)) with (String c s +:+ t).
    pose proof (Z.mod_pos_bound n 10 eq_refl) as Hmod.
    rewrite (digits_snoc _ _ _ _ _ Hs (digit_digit_char _ Hmod)).
    f_equal. pose proof (Z_div_mod_eq_full n 10). lia.
Qed.

Lemma Atoi_complete z : (- 2 ^ 63 ≤ z < 2 ^ 63)%Z → ∃ key, Go.Atoi key = Some z.
Proof.
  intros Hz. destruct (decide (0 ≤ z)%Z) as [Hpos|Hneg].
  - destruct (digits_complete z Hpos) as (c & s & d & Hc & Hs).
    exists (String c s). rewrite (unsigned_digit _ _ _ Hc).
    unfold Go.unsigned. rewrite Hs. cbn [mbind option_bind].
    unfold Go.in_int. by rewrite bool_decide_eq_true_2.
  - destruct (digits_complete (- z)%Z ltac:(lia)) as (c & s & d & Hc & Hs).
    exists (String "-" (String c s)).
    unfold Go.Atoi, Go.unsigned. rewrite Hs. cbn [mbind option_bind].
    unfold Go.in_int. rewrite bool_decide_eq_true_2 by lia. f_equal. lia.
Qed.

(** ** The scenarios of the specification, run on the handlers *)

(** Two posts to [x] get the ids 1 and 2, and a read from 0 gives both
    messages in that order. *)
Example scenario_two_posts :
  history [POST_messages "x" (Decoded (mkMsgPost 0 "a" "hi" []));
           POST_messages "x" (Decoded (mkMsgPost 0 "b" "yo" []));
           GET_messages "x" "0"]
  = [(POST_messages "x" (Decoded (mkMsgPost 0 "a" "hi" [])), Respond StatusOK (IdOf 1));
     (POST_messages "x" (Decoded (mkMsgPost 0 "b" "yo" [])), Respond StatusOK (IdOf 2));
     (GET_messages "x" "0",
      Respond StatusOK (MessagesOf [mkMsgPost 1 "a" "hi" []; mkMsgPost 2 "b" "yo" []]))].
Proof. reflexivity. Qed.

(** A read of a channel that was never created. *)
Example scenario_never_created :
  getMessage "never-created" "0" ∅
  = (Respond StatusBadRequest (Text "Sorry No such channel exist!"), ∅).
Proof. reflexivity. Qed.

(** A read after the last id. *)
Example scenario_nothing_new :
  (getMessage "x" "2" two_messages).1
  = Respond StatusBadRequest (Text "No new message after last_id").
Proof. reflexivity. Qed.

(** A thread posted to number 1 of a channel with two messages is read back
    under number 1. *)
Example scenario_thread_round_trip :
  (getThreads "x" "1"
     (postThread "x" "1" (Decoded (mkThread "c" "reply")) two_messages).2).1
  = Respond StatusOK (ThreadsOf [mkThread "c" "reply"]).
Proof. reflexivity. Qed.

(** A thread posted to number 99 of a channel with two messages. *)
Example scenario_thread_out_of_range :
  postThread "x" "99" (Decoded (mkThread "c" "reply")) two_messages
  = (Respond StatusBadRequest (Text "Provided messageId does not exist!"), two_messages).
Proof. reflexivity. Qed.

(** * Further properties of the handlers *)

(** ** What a request can change *)

(** The three ways a request can end: the map is as it was and the answer is
    not an id; or it was an accepted post of a message; or it was an accepted
    post of a thread. *)
Lemma serve_cases r live :
  ((serve r live).2 = live ∧ ∀ id, (serve r live).1 ≠ Respond StatusOK (IdOf id)) ∨
  (∃ channel mesg,
     r = POST_messages channel (Decoded mesg) ∧ routeChannel channel = true ∧
     filled (Username mesg) (Message mesg) = true ∧
     serve r live =
       (Respond StatusOK (IdOf (Z.of_nat (length (log_of live channel)) + 1)),
        <[channel := mkSubject
            (log_of live channel ++ [stored (length (log_of live channel)) mesg])
            (title (subject_of live channel))]> live)) ∨
  (∃ channel message_id reply id s m,
     r = POST_thread channel message_id (Decoded reply) ∧
     routeChannel channel = true ∧
     Go.Atoi message_id = Some id ∧
     filled (ThreadUsername reply) (ThreadMessage reply) = true ∧
     live !! channel = Some s ∧
     (0 ≤ id < Z.of_nat (length (Messages s)))%Z ∧
     Messages s !! Z.to_nat id = Some m ∧
     serve r live =
       (Respond StatusOK (IdOf id),
        <[channel := mkSubject (<[Z.to_nat id := threaded m reply]> (Messages s))
                               (title s)]> live)).
Proof.
  destruct r as [channel key|channel body|channel message_id|channel message_id body];
    simpl.
  - left. destruct (routeChannel channel); [|done].
    rewrite getMessage_state. split; [done|]. intros id. unfold getMessage.
    destruct (last_id key); [|done]. destruct (live !! _); [|done].
    case_bool_decide; [done|]. by destruct (Go.slice_from _ _).
  - destruct (routeChannel channel) eqn:Hroute; [|by left].
    destruct body as [mesg|err]; [|by left].
    destruct (filled (Username mesg) (Message mesg)) eqn:Hf.
    + right. left. exists channel, mesg. by rewrite postMessage_filled.
    + left. by rewrite postMessage_unfilled.
  - left. destruct (_ && _); [|done].
    rewrite getThreads_state. split; [done|]. intros id. unfold getThreads.
    destruct (Go.Atoi message_id); [|done]. destruct (live !! _); [|done].
    case_bool_decide; [done|]. by destruct (Go.index _ _).
  - destruct (routeChannel channel) eqn:Hroute; [|by left]. simpl.
    destruct (routeSegment message_id); [|by left].
    destruct (postThread_effect channel message_id body live)
      as [[Hst Hne]|(id & reply & s & m & Hid & -> & Hf & Hs & Hr & Hm & Heq)].
    + left. split; [done|]. intros id. apply Hne.
    + right. right. by exists channel, message_id, reply, id, s, m.
Qed.

(** X1. A request that is not answered 200 with an id leaves the map exactly
    as it was: a refused, malformed or unrouted request, a read, and also a
    request whose handler panics, stores nothing and creates no channel. *)
Theorem unchanged_unless_accepted r live :
  (∀ id, (serve r live).1 ≠ Respond StatusOK (IdOf id)) →
  (serve r live).2 = live.
Proof.
  intros Hne. destruct (serve_cases r live)
    as [[Hst _]|[(channel & mesg & _ & _ & _ & Heq)|
                 (channel & message_id & reply & id & s & m & _ & _ & _ & _ & _ & _ & _ & Heq)]];
    [done| |]; rewrite Heq in Hne; by edestruct Hne.
Qed.

Lemma unchanged_unless_accepted_witness :
  (∀ id, (serve (POST_thread "x" "-1" (Decoded (mkThread "c" "reply"))) one_message).1
           ≠ Respond StatusOK (IdOf id)) ∧
  (serve (POST_thread "x" "-1" (Decoded (mkThread "c" "reply"))) one_message).2
    = one_message.
Proof.
  assert (∀ id, (serve (POST_thread "x" "-1" (Decoded (mkThread "c" "reply")))
                   one_message).1 ≠ Respond StatusOK (IdOf id)) as Hne
    by (intros id; vm_compute; discriminate).
  split; [exact Hne|]. exact (unchanged_unless_accepted _ _ Hne).
Defined.

(** X2. A handler panics only on a negative number: when serving a request
    ends in a panic, the request carries a number that parsed to a negative
    integer, and the channel it looks up is in the map.  So a post of a
    message never panics, and no request with a number from 0 on does. *)
Theorem panic_only_below_zero r live :
  (serve r live).1 = Panic →
  ∃ id, number_of r = Some id ∧ (id < 0)%Z ∧ is_Some (live !! key_of r).
Proof.
  destruct r as [channel key|channel body|channel message_id|channel message_id body];
    simpl.
  - destruct (routeChannel channel); [|done]. unfold getMessage.
    destruct (last_id key) as [id|]; [|done].
    destruct (live !! _) as [s|] eqn:Hs; [|done].
    case_bool_decide as Hlen; [done|].
    destruct (Go.slice_from _ _) eqn:Hsl; [done|]. intros _.
    apply slice_from_None in Hsl. exists id. split; [done|]. split; [lia|eauto].
  - destruct (routeChannel channel); [|done].
    destruct body as [mesg|err]; [|done].
    destruct (filled (Username mesg) (Message mesg)) eqn:Hf.
    + by rewrite postMessage_filled.
    + by rewrite postMessage_unfilled.
  - destruct (_ && _); [|done]. unfold getThreads.
    destruct (Go.Atoi message_id) as [id|]; [|done].
    destruct (live !! _) as [s|] eqn:Hs; [|done].
    case_bool_decide as Hlen; [done|].
    destruct (Go.index _ _) eqn:Hix; [done|]. intros _.
    apply index_None in Hix. exists id. split; [done|]. split; [lia|eauto].
  - destruct (_ && _); [|done]. unfold postThread.
    destruct (Go.Atoi message_id) as [id|]; [|done].
    destruct body as [reply|err]; [|done].
    destruct (filled _ _); [|done].
    destruct (live !! channel) as [s|] eqn:Hs; [|done].
    case_bool_decide as Hlen; [done|].
    destruct (Go.index _ _) eqn:Hix; [done|]. intros _.
    apply index_None in Hix. exists id. split; [done|]. split; [lia|eauto].
Qed.

Lemma panic_only_below_zero_witness :
  (serve (GET_messages "x" "-1") one_message).1 = Panic ∧
  ∃ id, number_of (GET_messages "x" "-1") = Some id ∧ (id < 0)%Z ∧
        is_Some (one_message !! key_of (GET_messages "x" "-1")).
Proof.
  assert ((serve (GET_messages "x" "-1") one_message).1 = Panic) as Hp by reflexivity.
  split; [exact Hp|]. exact (panic_only_below_zero _ _ Hp).
Defined.

(** X3. A request leaves every channel other than the one it works on as it
    was: present or absent, with the same log and the same threads. *)
Theorem other_channels_untouched r live c :
  key_of r ≠ c → (serve r live).2 !! c = live !! c.
Proof.
  intros Hne. destruct (serve_cases r live)
    as [[-> _]|[(channel & mesg & -> & _ & _ & ->)|
                (channel & message_id & reply & id & s & m & -> & _ & _ & _ & _ & _ & _ & ->)]];
    [done| |]; simpl in *; by rewrite lookup_insert_ne.
Qed.

Lemma other_channels_untouched_witness :
  key_of (POST_messages "y" (Decoded (mkMsgPost 0 "b" "yo" []))) ≠ "x" ∧
  (serve (POST_messages "y" (Decoded (mkMsgPost 0 "b" "yo" []))) one_message).2 !! "x"
    = one_message !! "x".
Proof.
  assert (key_of (POST_messages "y" (Decoded (mkMsgPost 0 "b" "yo" []))) ≠ "x") as Hne
    by discriminate.
  split; [exact Hne|]. exact (other_channels_untouched _ _ _ Hne).
Defined.

(** ** Logs only grow *)

Lemma grown_refl m : grown m m.
Proof. repeat split. exists []. by rewrite app_nil_r. Qed.

Lemma grown_trans m1 m2 m3 : grown m1 m2 → grown m2 m3 → grown m1 m3.
Proof.
  intros (Hi & Hu & Hm & a & Ha) (Hi' & Hu' & Hm' & a' & Ha').
  repeat split; [congruence..|].
  exists (a ++ a'). by rewrite Ha', Ha, app_assoc.
Qed.

Lemma Forall2_grown_refl l : Forall2 grown l l.
Proof. induction l; constructor; [apply grown_refl|done]. Qed.

Lemma log_grown_refl l : log_grown l l.
Proof. exists l, []. split; [by rewrite app_nil_r|apply Forall2_grown_refl]. Qed.

Lemma log_grown_trans l1 l2 l3 : log_grown l1 l2 → log_grown l2 l3 → log_grown l1 l3.
Proof.
  intros (k & a & -> & Hk) (k' & a' & -> & Hk').
  apply Forall2_app_inv_l in Hk' as (k1 & k2 & H1 & H2 & ->).
  exists k1, (k2 ++ a'). split; [by rewrite app_assoc|].
  revert k1 H1. induction Hk as [|m m' l l' Hm _ IH]; intros k1 H1.
  - by inversion H1.
  - inversion H1 as [|? m'' ? l'' Hm' Hl']; subst. constructor.
    + by eapply grown_trans.
    + by apply IH.
Qed.

Lemma log_grown_threaded (l : list msgPost) (i : nat) m reply :
  l !! i = Some m → log_grown l (<[i := threaded m reply]> l).
Proof.
  intros Hm. exists (<[i := threaded m reply]> l), [].
  split; [by rewrite app_nil_r|].
  apply Forall2_same_length_lookup. split; [by rewrite length_insert|].
  intros j x y Hx Hy. destruct (decide (i = j)) as [->|Hne].
  - rewrite list_lookup_insert_eq in Hy by by eapply lookup_lt_Some.
    injection Hy as <-. rewrite Hm in Hx. injection Hx as <-.
    repeat split. by exists [reply].
  - rewrite list_lookup_insert_ne in Hy by done.
    rewrite Hx in Hy. injection Hy as <-. apply grown_refl.
Qed.

Lemma serve_log_grown r live c :
  log_grown (log_of live c) (log_of (serve r live).2 c) ∧
  (is_Some (live !! c) → is_Some ((serve r live).2 !! c)).
Proof.
  destruct (serve_cases r live)
    as [[-> _]|[(channel & mesg & -> & _ & _ & ->)|
                (channel & message_id & reply & id & s & m & -> & _ & _ & _ & Hs & _ & Hm & ->)]];
    simpl.
  - split; [apply log_grown_refl|done].
  - destruct (decide (channel = c)) as [->|Hne].
    + rewrite log_of_insert, lookup_insert_eq. simpl. split; [|eauto].
      eexists _, _. split; [done|apply Forall2_grown_refl].
    + rewrite log_of_insert_ne, lookup_insert_ne by done.
      split; [apply log_grown_refl|done].
  - destruct (decide (channel = c)) as [->|Hne].
    + rewrite log_of_insert, lookup_insert_eq. simpl. split; [|eauto].
      unfold log_of. rewrite Hs. by apply log_grown_threaded.
    + rewrite log_of_insert_ne, lookup_insert_ne by done.
      split; [apply log_grown_refl|done].
Qed.

Lemma run_log_grown reqs : ∀ live c,
  log_grown (log_of live c) (log_of (run reqs live).2 c) ∧
  (is_Some (live !! c) → is_Some ((run reqs live).2 !! c)).
Proof.
  induction reqs as [|r reqs IH]; intros live c.
  - simpl. split; [apply log_grown_refl|done].
  - rewrite run_cons. cbn [fst snd].
    destruct (serve_log_grown r live c) as [Hg Hs].
    destruct (IH (serve r live).2 c) as [Hg' Hs'].
    split; [by eapply log_grown_trans|auto].
Qed.

(** X4. Nothing that was stored is ever removed or rewritten.  Whatever
    requests are served from a map, a channel of the map is still there
    afterwards, and its log then consists of the messages it had, in their
    order, each with the same id, username and message and with its earlier
    threads in front of the threads added since, followed by the messages
    added since. *)
Theorem stored_history_is_kept reqs live c :
  log_grown (log_of live c) (log_of (run reqs live).2 c) ∧
  (is_Some (live !! c) → is_Some ((run reqs live).2 !! c)).
Proof.
  revert live. induction reqs as [|r reqs IH]; intros live.
  - simpl. split; [apply log_grown_refl|done].
  - rewrite run_cons. cbn [fst snd].
    destruct (serve_log_grown r live c) as [Hg Hs].
    destruct (IH (serve r live).2) as [Hg' Hs'].
    split; [by eapply log_grown_trans|auto].
Qed.

(** ** What the logs and the map hold *)

(** A property of messages that accepted bodies have and that a thread post
    keeps holds of every message of every log after a run. *)
Lemma run_all_messages (Q : msgPost → Prop) :
  (∀ n mesg, filled (Username mesg) (Message mesg) = true → Q (stored n mesg)) →
  (∀ m reply, Q m → Q (threaded m reply)) →
  ∀ reqs live,
    (∀ c, Forall Q (log_of live c)) → ∀ c, Forall Q (log_of (run reqs live).2 c).
Proof.
  intros Hstored Hthreaded. induction reqs as [|r reqs IH]; intros live Hlive c; [done|].
  rewrite run_cons. cbn [fst snd]. apply IH. clear c. intros c.
  destruct (serve_cases r live)
    as [[-> _]|[(channel & mesg & -> & _ & Hf & ->)|
                (channel & message_id & reply & id & s & m & -> & _ & _ & _ & Hs & _ & Hm & ->)]];
    simpl; [done| |].
  - destruct (decide (channel = c)) as [->|Hne].
    + rewrite log_of_insert. simpl. apply Forall_app. split; [done|].
      constructor; [by apply Hstored|constructor].
    + by rewrite log_of_insert_ne.
  - destruct (decide (channel = c)) as [->|Hne].
    + rewrite log_of_insert. simpl.
      specialize (Hlive c). unfold log_of in Hlive. rewrite Hs in Hlive.
      apply Forall_insert; [done|]. apply Hthreaded.
      by eapply Forall_lookup_1.
    + by rewrite log_of_insert_ne.
Qed.

(** X5. Every message of every log, after any run from the empty map, has a
    non-empty username and a non-empty message. *)
Theorem stored_messages_are_filled reqs c m :
  m ∈ log_of (state_after reqs) c → Username m ≠ "" ∧ Message m ≠ "".
Proof.
  revert m. apply Forall_forall.
  apply (run_all_messages (λ m, Username m ≠ "" ∧ Message m ≠ "")).
  - intros n mesg Hf. by apply filled_true in Hf.
  - done.
  - intros c'. unfold log_of. by rewrite lookup_empty.
Qed.

Lemma stored_messages_are_filled_witness :
  mkMsgPost 2 "b" "yo" [] ∈ log_of
    (state_after [POST_messages "x" (Decoded (mkMsgPost 0 "a" "hi" []));
                  POST_messages "x" (Decoded (mkMsgPost 0 "b" "yo" []))]) "x" ∧
  Username (mkMsgPost 2 "b" "yo" []) ≠ "" ∧ Message (mkMsgPost 2 "b" "yo" []) ≠ "".
Proof.
  assert (mkMsgPost 2 "b" "yo" [] ∈ log_of
    (state_after [POST_messages "x" (Decoded (mkMsgPost 0 "a" "hi" []));
                  POST_messages "x" (Decoded (mkMsgPost 0 "b" "yo" []))]) "x") as Hin.
  { change (mkMsgPost 2 "b" "yo" [] ∈ [mkMsgPost 1 "a" "hi" []; mkMsgPost 2 "b" "yo" []]).
    apply list_elem_of_further, list_elem_of_here. }
  split; [exact Hin|]. exact (stored_messages_are_filled _ _ _ Hin).
Defined.

(** X6. The keys of the map are names the router accepts: after any run from
    the empty map, a channel that is present has a non-empty name made of
    letters, digits, commas and hyphens. *)
Theorem stored_names_are_routed reqs c :
  is_Some (state_after reqs !! c) → routeChannel c = true.
Proof.
  unfold state_after. generalize (lookup_empty (M := gmap string) (A := subject) c).
  generalize (∅ : liveMessages) as live.
  induction reqs as [|r reqs IH]; intros live Hlive.
  - simpl. rewrite Hlive. by intros [? ?].
  - rewrite run_cons. cbn [fst snd].
    destruct (decide (routeChannel c = true)) as [|Hc]; [done|].
    apply IH.
    destruct (serve_cases r live)
      as [[-> _]|[(channel & mesg & -> & Hr & _ & ->)|
                  (channel & message_id & reply & id & s & m & -> & Hr & _ & _ & _ & _ & _ & ->)]];
      simpl; [done| |]; rewrite lookup_insert_ne; [done|congruence|done|congruence].
Qed.

Lemma stored_names_are_routed_witness :
  is_Some (state_after [POST_messages "x" (Decoded (mkMsgPost 0 "a" "hi" []))] !! "x") ∧
  routeChannel "x" = true.
Proof.
  assert (is_Some (state_after [POST_messages "x" (Decoded (mkMsgPost 0 "a" "hi" []))]
                     !! "x")) as Hs by (eexists; reflexivity).
  split; [exact Hs|]. exact (stored_names_are_routed _ _ Hs).
Defined.

(** X7. A channel is in the map exactly when a post of a message to that
    very name was accepted: after any run from the empty map, the channel is
    present if and only if the run holds at least one successful append to
    it. *)
Theorem channel_present_iff_posted reqs c :
  is_Some (state_after reqs !! c) ↔ 0 < appends c reqs.
Proof.
  unfold appends, state_after, history.
  destruct (run_channel reqs ∅ c (channel_ok_empty c)) as ([_ Hne] & _ & Hlen).
  change (length (log_of ∅ c)) with 0 in Hlen. simpl in Hlen. split.
  - intros Hs. specialize (Hne Hs). rewrite <- Hlen.
    destruct (log_of _ c); [done|simpl; lia].
  - intros Hpos. rewrite <- Hlen in Hpos. unfold log_of in Hpos.
    destruct ((run reqs ∅).2 !! c); [eauto|simpl in Hpos; lia].
Qed.

(** ** Posts followed by reads *)

(** X8. A thread that was accepted is read back under the same number.  For
    a channel name without upper-case letter that is in the map, and a number
    that is an index into its log, posting a thread with non-empty fields
    and then reading the threads under the same name and number gives the
    threads the message at that index had, followed by the new thread. *)
Theorem thread_post_then_read live channel message_id id s m reply :
  Go.has_upper channel = false →
  live !! channel = Some s →
  Go.Atoi message_id = Some id →
  Messages s !! Z.to_nat id = Some m → (0 ≤ id)%Z →
  ThreadUsername reply ≠ "" → ThreadMessage reply ≠ "" →
  (getThreads channel message_id
     (postThread channel message_id (Decoded reply) live).2).1
  = Respond StatusOK (ThreadsOf (Threads m ++ [reply])).
Proof.
  intros Hlow%ToLower_fixed Hs Hid Hm Hpos Hu Ht.
  assert (filled (ThreadUsername reply) (ThreadMessage reply) = true) as Hf
    by by apply filled_true.
  pose proof (lookup_lt_Some _ _ _ Hm) as Hlt.
  destruct (postThread_by_index live channel message_id id reply s Hs Hid Hf)
    as (_ & _ & Hin).
  destruct Hin as (m' & Hm' & ->); [lia|].
  rewrite Hm in Hm'. injection Hm' as <-. simpl.
  unfold getThreads. rewrite Hid, Hlow, lookup_insert_eq. simpl.
  rewrite length_insert. rewrite bool_decide_eq_false_2 by lia.
  unfold Go.index. rewrite bool_decide_eq_false_2 by lia.
  by rewrite list_lookup_insert_eq by done.
Qed.

Lemma thread_post_then_read_witness :
  Go.has_upper "x" = false ∧
  two_messages !! "x"
    = Some (mkSubject [mkMsgPost 1 "a" "hi" []; mkMsgPost 2 "b" "yo" []] "") ∧
  Go.Atoi "1" = Some 1%Z ∧
  [mkMsgPost 1 "a" "hi" []; mkMsgPost 2 "b" "yo" []] !! Z.to_nat 1
    = Some (mkMsgPost 2 "b" "yo" []) ∧
  (0 ≤ 1)%Z ∧ "c" ≠ "" ∧ "reply" ≠ "" ∧
  (getThreads "x" "1"
     (postThread "x" "1" (Decoded (mkThread "c" "reply")) two_messages).2).1
  = Respond StatusOK (ThreadsOf ([] ++ [mkThread "c" "reply"])).
Proof.
  assert (two_messages !! "x"
          = Some (mkSubject [mkMsgPost 1 "a" "hi" []; mkMsgPost 2 "b" "yo" []] ""))
    as Hs by reflexivity.
  assert ("c" ≠ "") as Hu by discriminate.
  assert ("reply" ≠ "") as Ht by discriminate.
  assert (0 ≤ 1)%Z as Hpos by lia.
  pose proof (thread_post_then_read two_messages "x" "1" 1
                (mkSubject [mkMsgPost 1 "a" "hi" []; mkMsgPost 2 "b" "yo" []] "")
                (mkMsgPost 2 "b" "yo" []) (mkThread "c" "reply")
                eq_refl Hs eq_refl eq_refl Hpos Hu Ht) as Hread.
  split; [reflexivity|]. split; [exact Hs|]. split; [reflexivity|].
  split; [reflexivity|]. split; [exact Hpos|]. split; [exact Hu|].
  split; [exact Ht|]. exact Hread.
Defined.

(** X9. The id a post is answered with is the position to poll from.  After
    an accepted post to a channel name without upper-case letter, which is
    answered with the id [n + 1] where [n] is the earlier length of the log,
    a read with [last_id = n] gives exactly the new message, and a read with
    [last_id = n + 1] is answered "No new message after last_id". *)
Theorem post_then_poll live channel mesg key key' :
  Go.has_upper channel = false →
  Username mesg ≠ "" → Message mesg ≠ "" →
  last_id key = Some (Z.of_nat (length (log_of live channel))) →
  last_id key' = Some (Z.of_nat (length (log_of live channel)) + 1)%Z →
  (postMessage channel (Decoded mesg) live).1
    = Respond StatusOK (IdOf (Z.of_nat (length (log_of live channel)) + 1)) ∧
  (getMessage channel key (postMessage channel (Decoded mesg) live).2).1
    = Respond StatusOK (MessagesOf [stored (length (log_of live channel)) mesg]) ∧
  (getMessage channel key' (postMessage channel (Decoded mesg) live).2).1
    = Respond StatusBadRequest (Text "No new message after last_id").
Proof.
  intros Hlow%ToLower_fixed Hu Hm Hkey Hkey'.
  rewrite postMessage_filled by by apply filled_true.
  simpl. split; [done|].
  unfold getMessage. rewrite Hkey, Hkey', Hlow, lookup_insert_eq. simpl.
  rewrite length_app. simpl. split.
  - rewrite bool_decide_eq_false_2 by lia.
    rewrite slice_from_in_range by (rewrite length_app; simpl; lia).
    by rewrite Nat2Z.id, drop_app_length.
  - by rewrite bool_decide_eq_true_2 by lia.
Qed.

Lemma post_then_poll_witness :
  Go.has_upper "x" = false ∧ "b" ≠ "" ∧ "yo" ≠ "" ∧
  last_id "1" = Some (Z.of_nat (length (log_of one_message "x"))) ∧
  last_id "2" = Some (Z.of_nat (length (log_of one_message "x")) + 1)%Z ∧
  (getMessage "x" "1"
     (postMessage "x" (Decoded (mkMsgPost 0 "b" "yo" [])) one_message).2).1
    = Respond StatusOK
        (MessagesOf [stored (length (log_of one_message "x")) (mkMsgPost 0 "b" "yo" [])]).
Proof.
  assert ("b" ≠ "") as Hu by discriminate.
  assert ("yo" ≠ "") as Hm by discriminate.
  destruct (post_then_poll one_message "x" (mkMsgPost 0 "b" "yo" []) "1" "2"
              eq_refl Hu Hm eq_refl eq_refl) as (_ & Hread & _).
  split; [reflexivity|]. split; [exact Hu|]. split; [exact Hm|].
  split; [reflexivity|]. split; [reflexivity|]. exact Hread.
Defined.

(** X10. What is stored under a name with an upper-case letter is never
    read: the answers of the two reads, for any name and number, are the
    same whether or not the map holds a channel under such a name and
    whatever its log is. *)
Theorem upper_case_channels_are_never_read live c s name key message_id :
  Go.has_upper c = true →
  (getMessage name key (<[c := s]> live)).1 = (getMessage name key live).1 ∧
  (getThreads name message_id (<[c := s]> live)).1
    = (getThreads name message_id live).1.
Proof.
  intros Hup.
  assert (c ≠ Go.ToLower name) as Hne.
  { intros ->. by rewrite ToLower_has_upper in Hup. }
  unfold getMessage, getThreads. rewrite !lookup_insert_ne by done. split.
  - destruct (last_id key); [|done]. destruct (live !! _); [|done].
    case_bool_decide; [done|]. by destruct (Go.slice_from _ _).
  - destruct (Go.Atoi message_id); [|done]. destruct (live !! _); [|done].
    case_bool_decide; [done|]. by destruct (Go.index _ _).
Qed.

Lemma upper_case_channels_are_never_read_witness :
  Go.has_upper "Alpha" = true ∧
  (getMessage "Alpha" "" (<["Alpha" := mkSubject [mkMsgPost 1 "a" "hi" []] ""]> ∅)).1
    = (getMessage "Alpha" "" ∅).1 ∧
  (getThreads "Alpha" "0" (<["Alpha" := mkSubject [mkMsgPost 1 "a" "hi" []] ""]> ∅)).1
    = (getThreads "Alpha" "0" ∅).1.
Proof.
  split; [reflexivity|].
  exact (upper_case_channels_are_never_read ∅ "Alpha"
           (mkSubject [mkMsgPost 1 "a" "hi" []] "") "Alpha" "" "0" eq_refl).
Defined.

(** ** When a post is accepted *)

(** X11. [postThread] answers 200 exactly when the number parses, the body
    decodes with a non-empty username and message, the channel is in the map
    under the name as given, and the number is an index into its log; the
    answer then echoes the number. *)
Theorem postThread_accepted_iff channel message_id body live p :
  (postThread channel message_id body live).1 = Respond StatusOK p ↔
  ∃ id reply s,
    Go.Atoi message_id = Some id ∧ body = Decoded reply ∧
    ThreadUsername reply ≠ "" ∧ ThreadMessage reply ≠ "" ∧
    live !! channel = Some s ∧
    (0 ≤ id < Z.of_nat (length (Messages s)))%Z ∧ p = IdOf id.
Proof.
  split.
  - intros Hok.
    destruct (postThread_effect channel message_id body live)
      as [[_ Hne]|(id & reply & s & m & Hid & -> & Hf & Hs & Hr & Hm & Heq)];
      [by destruct (Hne p)|].
    rewrite Heq in Hok. injection Hok as <-.
    apply filled_true in Hf as [? ?]. by exists id, reply, s.
  - intros (id & reply & s & Hid & -> & Hu & Ht & Hs & Hr & ->).
    assert (filled (ThreadUsername reply) (ThreadMessage reply) = true) as Hf
      by by apply filled_true.
    destruct (postThread_by_index live channel message_id id reply s Hs Hid Hf)
      as (_ & _ & Hin).
    by destruct (Hin Hr) as (m & _ & ->).
Qed.

(** [postMessage] answers 200 exactly when the body decodes with a
    non-empty username and message, whatever the map holds; the answer is
    then the length of the log of the channel plus one. *)
Lemma postMessage_accepted_iff channel body live p :
  (postMessage channel body live).1 = Respond StatusOK p ↔
  ∃ mesg, body = Decoded mesg ∧ Username mesg ≠ "" ∧ Message mesg ≠ "" ∧
          p = IdOf (Z.of_nat (length (log_of live channel)) + 1).
Proof.
  split.
  - destruct body as [mesg|err]; [|done].
    destruct (filled (Username mesg) (Message mesg)) eqn:Hf.
    + rewrite postMessage_filled by done. simpl. intros [= <-].
      apply filled_true in Hf as [? ?]. by exists mesg.
    + by rewrite postMessage_unfilled.
  - intros (mesg & -> & Hu & Hm & ->).
    by rewrite postMessage_filled by by apply filled_true.
Qed.

(** ** A number is an index *)

Lemma getThreads_by_index_witness :
  state_after [POST_messages "x" (Decoded (mkMsgPost 0 "a" "hi" []));
               POST_messages "x" (Decoded (mkMsgPost 0 "b" "yo" []))]
    !! Go.ToLower "x"
    = Some (mkSubject [mkMsgPost 1 "a" "hi" []; mkMsgPost 2 "b" "yo" []] "") ∧
  Go.Atoi "1" = Some 1%Z ∧
  (0 ≤ 1 < Z.of_nat (length [mkMsgPost 1 "a" "hi" []; mkMsgPost 2 "b" "yo" []]))%Z ∧
  ∃ m, [mkMsgPost 1 "a" "hi" []; mkMsgPost 2 "b" "yo" []] !! Z.to_nat 1 = Some m ∧
       Id m = (1 + 1)%Z ∧
       (getThreads "x" "1"
          (state_after [POST_messages "x" (Decoded (mkMsgPost 0 "a" "hi" []));
                        POST_messages "x" (Decoded (mkMsgPost 0 "b" "yo" []))])).1
         = Respond StatusOK (ThreadsOf (Threads m)).
Proof.
  assert (state_after [POST_messages "x" (Decoded (mkMsgPost 0 "a" "hi" []));
                       POST_messages "x" (Decoded (mkMsgPost 0 "b" "yo" []))]
            !! Go.ToLower "x"
          = Some (mkSubject [mkMsgPost 1 "a" "hi" []; mkMsgPost 2 "b" "yo" []] ""))
    as Hs by reflexivity.
  assert (Go.Atoi "1" = Some 1%Z) as Hid by reflexivity.
  assert (0 ≤ 1 < Z.of_nat (length [mkMsgPost 1 "a" "hi" []; mkMsgPost 2 "b" "yo" []]))%Z
    as Hr by (simpl; lia).
  destruct (getThreads_by_index _ _ _ _ _ Hs Hid) as (_ & _ & Hin).
  split; [exact Hs|]. split; [exact Hid|]. split; [exact Hr|]. exact (Hin Hr).
Defined.

(** * The earlier version against the later one *)

Lemma two_maps_empty : two_maps ∅ = Legacy.start.
Proof. unfold two_maps, Legacy.start. by rewrite !fmap_empty. Qed.

Lemma two_maps_messages live c :
  Legacy.liveMessages (two_maps live) !! c = Messages <$> live !! c.
Proof. simpl. by rewrite lookup_fmap. Qed.

Lemma two_maps_mutex live c :
  Legacy.liveRWMutex (two_maps live) !! c = (λ _, Legacy.Unlocked) <$> live !! c.
Proof. simpl. by rewrite lookup_fmap. Qed.

Lemma two_maps_messages_of live c :
  Legacy.messages_of (two_maps live) c = log_of live c.
Proof.
  unfold Legacy.messages_of, log_of. rewrite two_maps_messages.
  by destruct (live !! c).
Qed.

Lemma two_maps_insert live c s :
  is_Some (live !! c) →
  two_maps (<[c := s]> live)
  = Legacy.mkGlobals (<[c := Messages s]> (Legacy.liveMessages (two_maps live)))
                     (Legacy.liveRWMutex (two_maps live)).
Proof.
  intros [s' Hs]. unfold two_maps. simpl. rewrite !fmap_insert. f_equal.
  apply insert_id. by rewrite lookup_fmap, Hs.
Qed.

Lemma two_maps_insert_new live c s :
  live !! c = None →
  two_maps (<[c := s]> live)
  = Legacy.mkGlobals (<[c := Messages s]> (Legacy.liveMessages (two_maps live)))
                     (<[c := Legacy.Unlocked]> (Legacy.liveRWMutex (two_maps live))).
Proof. intros _. unfold two_maps. simpl. by rewrite !fmap_insert. Qed.

Lemma legacy_getMessage channel key live :
  Legacy.getMessage channel key (two_maps live)
  = (legacy_of (getMessage channel key live).1, two_maps live).
Proof.
  unfold Legacy.getMessage, getMessage.
  destruct (last_id key) as [id|]; [|done].
  rewrite two_maps_mutex, two_maps_messages.
  destruct (live !! _) as [s|]; simpl; [|done].
  case_bool_decide; [done|]. by destruct (Go.slice_from _ _).
Qed.

Lemma legacy_getThreads channel message_id live :
  Legacy.getThreads channel message_id (two_maps live)
  = (legacy_of (getThreads channel message_id live).1, two_maps live).
Proof.
  unfold Legacy.getThreads, getThreads.
  destruct (Go.Atoi message_id) as [id|]; [|done].
  rewrite two_maps_mutex, two_maps_messages.
  destruct (live !! _) as [s|]; simpl; [|done].
  case_bool_decide; [done|]. by destruct (Go.index _ _).
Qed.

Lemma legacy_postMessage channel body live :
  Legacy.postMessage channel body (two_maps live)
  = (legacy_of (postMessage channel body live).1,
     two_maps (postMessage channel body live).2).
Proof.
  destruct body as [mesg|err]; [|done].
  destruct (filled (Username mesg) (Message mesg)) eqn:Hf.
  - rewrite postMessage_filled by done. unfold Legacy.postMessage.
    rewrite Hf, two_maps_messages_of, two_maps_mutex. cbn [fst snd legacy_of].
    f_equal. destruct (live !! channel) as [s|] eqn:Hs; simpl.
    + by rewrite two_maps_insert by eauto.
    + by rewrite two_maps_insert_new by done.
  - rewrite postMessage_unfilled by done. unfold Legacy.postMessage. by rewrite Hf.
Qed.

Lemma legacy_postThread channel message_id body live :
  Legacy.postThread channel message_id body (two_maps live)
  = (legacy_of (postThread channel message_id body live).1,
     two_maps (postThread channel message_id body live).2).
Proof.
  unfold Legacy.postThread, postThread.
  destruct (Go.Atoi message_id) as [id|]; [|done].
  destruct body as [reply|err]; [|done].
  destruct (filled _ _); [|done].
  rewrite two_maps_mutex, two_maps_messages_of. unfold log_of.
  destruct (live !! channel) as [s|] eqn:Hs; simpl; [|done].
  case_bool_decide as Hlen.
  - by rewrite (proj2 (index_None _ _)) by lia.
  - destruct (Go.index _ _) as [m|]; [|done]. cbn [fst snd legacy_of].
    by rewrite two_maps_insert by eauto.
Qed.

Lemma legacy_serve r live :
  Legacy.serve r (two_maps live)
  = (legacy_of (serve r live).1, two_maps (serve r live).2).
Proof.
  destruct r as [channel key|channel body|channel message_id|channel message_id body];
    simpl.
  - destruct (routeChannel channel); [|done].
    by rewrite legacy_getMessage, getMessage_state.
  - destruct (routeChannel channel); [|done]. apply legacy_postMessage.
  - destruct (_ && _); [|done].
    by rewrite legacy_getThreads, getThreads_state.
  - destruct (_ && _); [|done]. apply legacy_postThread.
Qed.

Lemma legacy_run_cons r reqs g :
  Legacy.run (r :: reqs) g =
    (((r, (Legacy.serve r g).1) :: (Legacy.run reqs (Legacy.serve r g).2).1),
     (Legacy.run reqs (Legacy.serve r g).2).2).
Proof. simpl. destruct (Legacy.serve r g), (Legacy.run reqs _). done. Qed.

Lemma legacy_run reqs : ∀ live,
  Legacy.run reqs (two_maps live)
  = ((λ e, (e.1, legacy_of e.2)) <$> (run reqs live).1, two_maps (run reqs live).2).
Proof.
  induction reqs as [|r reqs IH]; intros live; [done|].
  rewrite legacy_run_cons, run_cons, legacy_serve. cbn [fst snd].
  by rewrite IH.
Qed.

Lemma legacy_from_start reqs :
  Legacy.run reqs Legacy.start
  = ((λ e, (e.1, legacy_of e.2)) <$> history reqs, two_maps (state_after reqs)).
Proof. unfold history, state_after. by rewrite <- two_maps_empty, legacy_run. Qed.

Lemma legacy_state_after reqs : Legacy.state_after reqs = two_maps (state_after reqs).
Proof. unfold Legacy.state_after. by rewrite legacy_from_start. Qed.


(** When the earlier version serves the requests one at a time, each from
    its first to its last line, the two maps have the same keys after them: a
    channel has a lock exactly when it has a log, and a read made then is
    not answered "Sorry No such channel exist!". *)
Theorem legacy_maps_agree reqs c :
  (is_Some (Legacy.liveRWMutex (Legacy.state_after reqs) !! c) ↔
   is_Some (Legacy.liveMessages (Legacy.state_after reqs) !! c)) ∧
  ∀ name key message_id,
    (Legacy.getMessage name key (Legacy.state_after reqs)).1
      ≠ Respond StatusBadRequest (Text "Sorry No such channel exist!") ∧
    (Legacy.getThreads name message_id (Legacy.state_after reqs)).1
      ≠ Respond StatusBadRequest (Text "Sorry No such channel exist!").
Proof.
  rewrite legacy_state_after. split.
  - rewrite two_maps_mutex, two_maps_messages. rewrite !fmap_is_Some. done.
  - intros name key message_id.
    unfold Legacy.getMessage, Legacy.getThreads.
    rewrite !two_maps_mutex, !two_maps_messages. split.
    + destruct (last_id key); [|done].
      destruct (state_after reqs !! _); simpl; [|done].
      case_bool_decide; [done|]. by destruct (Go.slice_from _ _).
    + destruct (Go.Atoi message_id); [|done].
      destruct (state_after reqs !! _); simpl; [|done].
      case_bool_decide; [done|]. by destruct (Go.index _ _).
Qed.

(** X15. The earlier [postThread] does not test the number: on a channel
    that has a lock, with a body that decodes with non-empty fields, it
    panics exactly when the number is not an index into the log, be it
    negative or at or above the length, and it leaves the maps as they
    were. *)
Theorem legacy_postThread_panics_iff channel message_id id reply g :
  is_Some (Legacy.liveRWMutex g !! channel) →
  Go.Atoi message_id = Some id →
  ThreadUsername reply ≠ "" → ThreadMessage reply ≠ "" →
  (Legacy.postThread channel message_id (Decoded reply) g = (Panic, g) ↔
   (id < 0 ∨ Z.of_nat (length (Legacy.messages_of g channel)) ≤ id)%Z) ∧
  ((Legacy.postThread channel message_id (Decoded reply) g).1 = Panic ∨
   (Legacy.postThread channel message_id (Decoded reply) g).1 = Respond StatusOK (IdOf id)).
Proof.
  intros [mu Hmu] Hid Hu Ht.
  assert (filled (ThreadUsername reply) (ThreadMessage reply) = true) as Hf
    by by apply filled_true.
  unfold Legacy.postThread. rewrite Hid, Hf, Hmu.
  destruct (Go.index _ id) as [m|] eqn:Hm.
  - split; [|by right]. apply index_Some in Hm as [Hr _].
    split; [done|lia].
  - split; [|by left]. apply index_None in Hm. done.
Qed.

Lemma legacy_postThread_panics_iff_witness :
  is_Some (Legacy.liveRWMutex (Legacy.state_after
     [POST_messages "x" (Decoded (mkMsgPost 0 "a" "hi" []))]) !! "x") ∧
  Go.Atoi "1" = Some 1%Z ∧ "c" ≠ "" ∧ "reply" ≠ "" ∧
  (1 < 0 ∨ Z.of_nat (length (Legacy.messages_of (Legacy.state_after
     [POST_messages "x" (Decoded (mkMsgPost 0 "a" "hi" []))]) "x")) ≤ 1)%Z ∧
  Legacy.postThread "x" "1" (Decoded (mkThread "c" "reply"))
    (Legacy.state_after [POST_messages "x" (Decoded (mkMsgPost 0 "a" "hi" []))])
  = (Panic, Legacy.state_after [POST_messages "x" (Decoded (mkMsgPost 0 "a" "hi" []))]).
Proof.
  assert (is_Some (Legacy.liveRWMutex (Legacy.state_after
            [POST_messages "x" (Decoded (mkMsgPost 0 "a" "hi" []))]) !! "x")) as Hmu
    by (eexists; reflexivity).
  assert ("c" ≠ "") as Hu by discriminate.
  assert ("reply" ≠ "") as Ht by discriminate.
  assert (1 < 0 ∨ Z.of_nat (length (Legacy.messages_of (Legacy.state_after
            [POST_messages "x" (Decoded (mkMsgPost 0 "a" "hi" []))]) "x")) ≤ 1)%Z as Hout
    by (right; vm_compute; discriminate).
  destruct (legacy_postThread_panics_iff "x" "1" 1 (mkThread "c" "reply") _
              Hmu eq_refl Hu Ht) as [[_ Hpanic] _].
  split; [exact Hmu|]. split; [reflexivity|]. split; [exact Hu|].
  split; [exact Ht|]. split; [exact Hout|]. exact (Hpanic Hout).
Defined.

Lemma assigned_legacy_of c r o : assigned c (r, legacy_of o) = assigned c (r, o).
Proof.
  destruct r; try done. destruct o as [status [s| | | |]|]; try done.
  unfold legacy_of. by repeat case_decide.
Qed.

Lemma assigned_ids_legacy_of c h :
  assigned_ids c ((λ e, (e.1, legacy_of e.2)) <$> h) = assigned_ids c h.
Proof.
  induction h as [|[r o] h IH]; [done|].
  rewrite fmap_cons, !assigned_ids_cons, IH. cbn [fst snd].
  by rewrite assigned_legacy_of.
Qed.

(** X16. The earlier version numbers the messages like the later one: after
    any run, the ids of the log it keeps for a channel are [1; 2; ..; N],
    where [N] is the number of posts of a message to that channel that it
    answered 200. *)
Theorem legacy_ids_contiguous reqs c :
  Id <$> Legacy.messages_of (Legacy.state_after reqs) c
  = seqZ 1 (Z.of_nat (length (assigned_ids c (Legacy.history reqs)))).
Proof.
  unfold Legacy.history. rewrite legacy_state_after, legacy_from_start.
  cbn [fst]. rewrite two_maps_messages_of.
  rewrite assigned_ids_legacy_of.
  unfold state_after, history.
  destruct (run_channel reqs ∅ c (channel_ok_empty c)) as ([Hn _] & _ & Hlen).
  change (length (log_of ∅ c)) with 0 in Hlen. simpl in Hlen.
  unfold numbered in Hn. by rewrite Hn, Hlen.
Qed.

(** * Reads over time *)

(** X17. What a read returned stays in later answers.  If a read of the
    messages is answered 200 with a list, then after any further requests
    the same read is answered 200 with those messages, in the same order and
    with the same ids, usernames and messages, their threads possibly
    extended at the end, followed by the messages added since. *)
Theorem later_read_extends_earlier reqs live name key l :
  (getMessage name key live).1 = Respond StatusOK (MessagesOf l) →
  ∃ l', (getMessage name key (run reqs live).2).1 = Respond StatusOK (MessagesOf l') ∧
        log_grown l l'.
Proof.
  unfold getMessage. destruct (last_id key) as [id|]; [|done].
  destruct (run_log_grown reqs live (Go.ToLower name)) as [Hg Hs].
  unfold log_of in Hg. destruct (live !! Go.ToLower name) as [s|]; [|done].
  destruct Hs as [s' Hs']; [eauto|]. rewrite Hs' in Hg |- *.
  destruct Hg as (kept & added & Hl' & Hk).
  pose proof (Forall2_length _ _ _ Hk) as Hlen.
  case_bool_decide as Hlt; [done|].
  destruct (Go.slice_from (Messages s) id) as [ms|] eqn:Hsl; [|done].
  intros [= <-]. unfold Go.slice_from in Hsl.
  case_bool_decide as Hr; [done|]. injection Hsl as <-.
  rewrite Hl', length_app.
  rewrite bool_decide_eq_false_2 by lia.
  rewrite slice_from_in_range by (rewrite length_app; lia).
  eexists. split; [done|].
  rewrite drop_app_le by lia.
  exists (drop (Z.to_nat id) kept), added. split; [done|].
  by apply Forall2_drop.
Qed.

Lemma later_read_extends_earlier_witness :
  (getMessage "x" "" one_message).1
    = Respond StatusOK (MessagesOf [mkMsgPost 1 "a" "hi" []]) ∧
  ∃ l', (getMessage "x" ""
           (run [POST_thread "x" "0" (Decoded (mkThread "c" "reply"));
                 POST_messages "x" (Decoded (mkMsgPost 0 "b" "yo" []))] one_message).2).1
          = Respond StatusOK (MessagesOf l') ∧
        log_grown [mkMsgPost 1 "a" "hi" []] l'.
Proof.
  assert ((getMessage "x" "" one_message).1
          = Respond StatusOK (MessagesOf [mkMsgPost 1 "a" "hi" []])) as Hread
    by reflexivity.
  split; [exact Hread|].
  exact (later_read_extends_earlier
           [POST_thread "x" "0" (Decoded (mkThread "c" "reply"));
            POST_messages "x" (Decoded (mkMsgPost 0 "b" "yo" []))]
           one_message "x" "" _ Hread).
Defined.

(** X18. The threads read under a number only grow at the end.  If a read
    of the threads is answered 200 with a sequence, then after any further
    requests the same read is answered 200 with that sequence followed by
    the threads added since. *)
Theorem later_threads_extend_earlier reqs live name message_id t :
  (getThreads name message_id live).1 = Respond StatusOK (ThreadsOf t) →
  ∃ added, (getThreads name message_id (run reqs live).2).1
             = Respond StatusOK (ThreadsOf (t ++ added)).
Proof.
  unfold getThreads. destruct (Go.Atoi message_id) as [id|]; [|done].
  destruct (run_log_grown reqs live (Go.ToLower name)) as [Hg Hs].
  unfold log_of in Hg. destruct (live !! Go.ToLower name) as [s|]; [|done].
  destruct Hs as [s' Hs']; [eauto|]. rewrite Hs' in Hg |- *.
  destruct Hg as (kept & added & Hl' & Hk).
  case_bool_decide as Hlt; [done|].
  destruct (Go.index (Messages s) id) as [m|] eqn:Hm; [|done].
  intros [= <-]. apply index_Some in Hm as [Hr Hm].
  destruct (Forall2_lookup_l _ _ _ _ _ Hk Hm) as (m' & Hm' & _ & _ & _ & more & Hmore).
  rewrite Hl', length_app.
  pose proof (lookup_lt_Some _ _ _ Hm') as Hlt'.
  rewrite bool_decide_eq_false_2 by lia.
  unfold Go.index. rewrite bool_decide_eq_false_2 by lia.
  rewrite lookup_app_l by done. rewrite Hm'. exists more. by rewrite Hmore.
Qed.

Lemma later_threads_extend_earlier_witness :
  (getThreads "x" "0" one_message).1 = Respond StatusOK (ThreadsOf []) ∧
  ∃ added, (getThreads "x" "0"
              (run [POST_thread "x" "0" (Decoded (mkThread "c" "reply"));
                    POST_messages "x" (Decoded (mkMsgPost 0 "b" "yo" []))] one_message).2).1
             = Respond StatusOK (ThreadsOf ([] ++ added)).
Proof.
  assert ((getThreads "x" "0" one_message).1 = Respond StatusOK (ThreadsOf []))
    as Hread by reflexivity.
  split; [exact Hread|].
  exact (later_threads_extend_earlier
           [POST_thread "x" "0" (Decoded (mkThread "c" "reply"));
            POST_messages "x" (Decoded (mkMsgPost 0 "b" "yo" []))]
           one_message "x" "0" _ Hread).
Defined.

(** * Requests that overlap *)

(** ** The two sections against the whole post *)

Lemma postMessage_sections channel mesg live :
  filled (Username mesg) (Message mesg) = true →
  postMessage channel (Decoded mesg) live
  = postMessage_append channel mesg (postMessage_create channel live).
Proof. intros Hf. unfold postMessage. by rewrite Hf. Qed.

(** The two sections of a post, run one right after the other, are the post
    served as a whole. *)
Lemma create_then_append channel mesg s :
  routeChannel channel = true →
  filled (Username mesg) (Message mesg) = true →
  fire (Append (length (in_flight s))) (fire (Create channel mesg) s)
  = fire (Whole (POST_messages channel (Decoded mesg))) s.
Proof.
  intros Hr Hf. simpl. rewrite Hr, Hf. simpl.
  rewrite lookup_app_r, Nat.sub_diag by done. simpl.
  f_equal.
  clear. induction (in_flight s) as [|x l IH]; [done|]. simpl. by rewrite IH.
Qed.

(** Requests served one at a time are the runs of [run]. *)
Lemma interleave_whole reqs : ∀ s,
  interleave (Whole <$> reqs) s = mkServer (run reqs (store s)).2 (in_flight s).
Proof.
  induction reqs as [|r reqs IH]; intros s; [by destruct s|].
  rewrite fmap_cons, run_cons. simpl. by rewrite IH.
Qed.

Lemma elem_of_delete_other {A} (l : list A) : ∀ n x y,
  l !! n = Some y → x ∈ l → x ≠ y → x ∈ delete n l.
Proof.
  induction l as [|a l IH]; intros [|n] x y Hn Hx Hne; simpl in *; try done.
  - injection Hn as ->. apply elem_of_cons in Hx as [->|Hx]; done.
  - apply elem_of_cons in Hx as [->|Hx]; [apply list_elem_of_here|].
    apply list_elem_of_further. by eapply IH.
Qed.

(** ** A channel is empty only while its first post is under way *)

Lemma fire_present e s :
  (∀ c sub, store s !! c = Some sub →
     Messages sub ≠ [] ∨ ∃ mesg, (c, mesg) ∈ in_flight s) →
  ∀ c sub, store (fire e s) !! c = Some sub →
     Messages sub ≠ [] ∨ ∃ mesg, (c, mesg) ∈ in_flight (fire e s).
Proof.
  intros Hinv c sub. destruct e as [r|channel mesg|n]; simpl.
  - destruct (serve_cases r (store s))
      as [[-> _]|[(channel & mesg & _ & _ & _ & ->)|
                  (channel & message_id & reply & id & s0 & m & _ & _ & _ & _ & _ & Hr & _ & ->)]];
      simpl; [apply Hinv| |].
    + destruct (decide (channel = c)) as [->|Hne].
      * rewrite lookup_insert_eq. intros [= <-]. left. simpl.
        by destruct (log_of (store s) c).
      * rewrite lookup_insert_ne by done. apply Hinv.
    + destruct (decide (channel = c)) as [->|Hne].
      * rewrite lookup_insert_eq. intros [= <-]. left. simpl.
        intros Hnil. apply (f_equal length) in Hnil.
        rewrite length_insert in Hnil. simpl in Hnil. lia.
      * rewrite lookup_insert_ne by done. apply Hinv.
  - destruct (_ && _); [|apply Hinv]. simpl. unfold postMessage_create.
    destruct (store s !! channel) as [s0|] eqn:Hs0.
    + intros Hc. destruct (Hinv c sub Hc) as [?|[m Hm]]; [by left|].
      right. exists m. apply elem_of_app. by left.
    + destruct (decide (channel = c)) as [->|Hne].
      * intros _. right. exists mesg. apply elem_of_app. right. apply list_elem_of_here.
      * rewrite lookup_insert_ne by done. intros Hc.
        destruct (Hinv c sub Hc) as [?|[m Hm]]; [by left|].
        right. exists m. apply elem_of_app. by left.
  - destruct (in_flight s !! n) as [[channel mesg]|] eqn:Hn; [|apply Hinv]. simpl.
    unfold postMessage_append.
    destruct (store s !! channel) as [s0|] eqn:Hs0; simpl.
    + destruct (decide (channel = c)) as [->|Hne].
      * rewrite lookup_insert_eq. intros [= <-]. left. simpl.
        by destruct (Messages s0).
      * rewrite lookup_insert_ne by done. intros Hc.
        destruct (Hinv c sub Hc) as [?|[m Hm]]; [by left|].
        right. exists m. eapply elem_of_delete_other; [done..|congruence].
    + intros Hc. destruct (Hinv c sub Hc) as [?|[m Hm]]; [by left|].
      right. exists m. eapply elem_of_delete_other; [done..|].
      intros [= -> ->]. congruence.
Qed.

Lemma interleave_present es : ∀ s,
  (∀ c sub, store s !! c = Some sub →
     Messages sub ≠ [] ∨ ∃ mesg, (c, mesg) ∈ in_flight s) →
  ∀ c sub, store (interleave es s) !! c = Some sub →
     Messages sub ≠ [] ∨ ∃ mesg, (c, mesg) ∈ in_flight (interleave es s).
Proof.
  induction es as [|e es IH]; intros s Hinv; [done|].
  simpl. apply IH. by apply fire_present.
Qed.

(** C10 (as amended). Take the server one section at a time: whole
    requests, and posts of a message split where another request can come in
    between, after the subject of the channel was created and before the
    message is appended.  In every state reached from the empty map, a
    channel that is present in the map has at least one message in its log,
    unless a post of a message to that channel is between its two sections;
    so when no post is under way, every channel that is present has a
    message. *)
Theorem present_channel_empty_only_in_flight es c sub :
  store (interleave es boot) !! c = Some sub →
  (1 ≤ length (Messages sub) ∨ ∃ mesg, (c, mesg) ∈ in_flight (interleave es boot)) ∧
  (in_flight (interleave es boot) = [] → 1 ≤ length (Messages sub)).
Proof.
  intros Hc.
  assert (Messages sub ≠ [] ∨ ∃ mesg, (c, mesg) ∈ in_flight (interleave es boot)) as H.
  { revert c sub Hc. apply interleave_present. intros c sub. simpl.
    by rewrite lookup_empty. }
  assert (Messages sub ≠ [] → 1 ≤ length (Messages sub)) as Hlen.
  { destruct (Messages sub); [done|simpl; lia]. }
  split.
  - destruct H as [?|?]; [left; auto|by right].
  - intros Hnone. destruct H as [?|[m Hm]]; [auto|].
    rewrite Hnone in Hm. by apply elem_of_nil in Hm.
Qed.

Lemma present_channel_empty_only_in_flight_witness :
  store (interleave [Create "x" (mkMsgPost 0 "a" "hi" []); Append 0;
                     Whole (GET_messages "x" "")] boot) !! "x"
    = Some (mkSubject [mkMsgPost 1 "a" "hi" []] "") ∧
  (1 ≤ length (Messages (mkSubject [mkMsgPost 1 "a" "hi" []] "")) ∨
   ∃ mesg, ("x", mesg) ∈ in_flight
     (interleave [Create "x" (mkMsgPost 0 "a" "hi" []); Append 0;
                  Whole (GET_messages "x" "")] boot)) ∧
  (in_flight (interleave [Create "x" (mkMsgPost 0 "a" "hi" []); Append 0;
                          Whole (GET_messages "x" "")] boot) = [] →
   1 ≤ length (Messages (mkSubject [mkMsgPost 1 "a" "hi" []] ""))).
Proof.
  assert (store (interleave [Create "x" (mkMsgPost 0 "a" "hi" []); Append 0;
                             Whole (GET_messages "x" "")] boot) !! "x"
          = Some (mkSubject [mkMsgPost 1 "a" "hi" []] "")) as Hc by reflexivity.
  split; [exact Hc|]. exact (present_channel_empty_only_in_flight _ _ _ Hc).
Defined.

(** C10 as it was stated fails: after the first section of the first post to
    [x], the channel is in the map with an empty log, and a read that comes
    then is answered "No new message after last_id". *)
Lemma channel_present_and_empty_in_flight :
  store (interleave [Create "x" (mkMsgPost 0 "a" "hi" [])] boot) !! "x"
    = Some (mkSubject [] "") ∧
  ¬ (1 ≤ length (Messages (mkSubject [] ""))) ∧
  (getMessage "x" "" (store (interleave [Create "x" (mkMsgPost 0 "a" "hi" [])] boot))).1
    = Respond StatusBadRequest (Text "No new message after last_id").
Proof. split; [reflexivity|]. split; [simpl; lia|reflexivity]. Qed.

(** ** A body with threads *)

(** C2 (the code departs from it). [postMessage] overwrites the id of the
    decoded body and stores the rest as it came: a body with a
    ["thread"] field is stored with those threads, not with an empty thread
    sequence, and without the test that [postThread] makes.  The thread with
    an empty username and message that is stored here with the first message
    of [x] is refused by [postThread]. *)
Theorem postMessage_stores_unchecked_threads :
  postMessage "x" (Decoded (mkMsgPost 0 "a" "hi" [mkThread "" ""])) ∅
    = (Respond StatusOK (IdOf 1),
       <["x" := mkSubject [mkMsgPost 1 "a" "hi" [mkThread "" ""]] ""]> ∅) ∧
  log_of (postMessage "x" (Decoded (mkMsgPost 0 "a" "hi" [mkThread "" ""])) ∅).2 "x"
    ≠ log_of ∅ "x" ++ [mkMsgPost 1 "a" "hi" []] ∧
  postThread "x" "0" (Decoded (mkThread "" "")) one_message
    = (Respond StatusBadRequest (Text "Empty username or message!"), one_message).
Proof.
  split; [reflexivity|]. split; [vm_compute; discriminate|reflexivity].
Qed.

(** ** A read between the two sections of a first post *)

(** X19. A first post can be seen half done.  In any state the server
    reaches, section by section, once a post of a message to a channel name
    without upper-case letter that is not yet in the map has run its first
    section, the channel is in the map with an empty log: a read of its
    messages with any [last_id] from 0 on is answered "No new message after
    last_id", and a thread posted to it is refused. *)
Theorem read_between_sections es channel mesg key afterId message_id id reply :
  routeChannel channel = true →
  Username mesg ≠ "" → Message mesg ≠ "" →
  Go.has_upper channel = false →
  store (interleave es boot) !! channel = None →
  last_id key = Some afterId → (0 ≤ afterId)%Z →
  Go.Atoi message_id = Some id → (0 ≤ id)%Z →
  ThreadUsername reply ≠ "" → ThreadMessage reply ≠ "" →
  store (fire (Create channel mesg) (interleave es boot)) !! channel
    = Some (mkSubject [] "") ∧
  (getMessage channel key (store (fire (Create channel mesg) (interleave es boot)))).1
    = Respond StatusBadRequest (Text "No new message after last_id") ∧
  (postThread channel message_id (Decoded reply)
     (store (fire (Create channel mesg) (interleave es boot)))).1
    = Respond StatusBadRequest (Text "Provided messageId does not exist!").
Proof.
  intros Hr Hu Hm Hlow%ToLower_fixed Hnone Hkey Hpos Hid Hpos' Hru Hrm.
  assert (filled (Username mesg) (Message mesg) = true) as Hf by by apply filled_true.
  assert (filled (ThreadUsername reply) (ThreadMessage reply) = true) as Hrf
    by by apply filled_true.
  simpl. rewrite Hr, Hf. simpl. unfold postMessage_create. rewrite Hnone.
  rewrite lookup_insert_eq. split; [done|].
  unfold getMessage, postThread.
  rewrite Hkey, Hid, Hrf, Hlow, lookup_insert_eq. simpl.
  by rewrite !bool_decide_eq_true_2 by lia.
Qed.

Lemma read_between_sections_witness :
  routeChannel "x" = true ∧ "a" ≠ "" ∧ "hi" ≠ "" ∧ Go.has_upper "x" = false ∧
  store (interleave [] boot) !! "x" = None ∧
  last_id "" = Some 0%Z ∧ (0 ≤ 0)%Z ∧ Go.Atoi "0" = Some 0%Z ∧
  "c" ≠ "" ∧ "reply" ≠ "" ∧
  (getMessage "x" ""
     (store (fire (Create "x" (mkMsgPost 0 "a" "hi" [])) (interleave [] boot)))).1
    = Respond StatusBadRequest (Text "No new message after last_id").
Proof.
  assert ("a" ≠ "") as Hu by discriminate.
  assert ("hi" ≠ "") as Hm by discriminate.
  assert ("c" ≠ "") as Hru by discriminate.
  assert ("reply" ≠ "") as Hrm by discriminate.
  assert (0 ≤ 0)%Z as Hpos by lia.
  destruct (read_between_sections [] "x" (mkMsgPost 0 "a" "hi" []) "" 0 "0" 0
              (mkThread "c" "reply") eq_refl Hu Hm eq_refl eq_refl eq_refl Hpos
              eq_refl Hpos Hru Hrm) as (_ & Hread & _).
  split; [reflexivity|]. split; [exact Hu|]. split; [exact Hm|].
  split; [reflexivity|]. split; [reflexivity|]. split; [reflexivity|].
  split; [exact Hpos|]. split; [reflexivity|]. split; [exact Hru|].
  split; [exact Hrm|]. exact Hread.
Defined.

(** ** The earlier version, section by section *)

Lemma legacy_getMessage_state channel key g : (Legacy.getMessage channel key g).2 = g.
Proof.
  unfold Legacy.getMessage. destruct (last_id key); [|done].
  destruct (Legacy.liveRWMutex g !! _); [|done].
  destruct (Legacy.liveMessages g !! _); [|done]. case_bool_decide; [done|].
  by destruct (Go.slice_from _ _).
Qed.

Lemma legacy_getThreads_state channel message_id g :
  (Legacy.getThreads channel message_id g).2 = g.
Proof.
  unfold Legacy.getThreads. destruct (Go.Atoi message_id); [|done].
  destruct (Legacy.liveRWMutex g !! _); [|done].
  destruct (Legacy.liveMessages g !! _); [|done]. case_bool_decide; [done|].
  by destruct (Go.index _ _).
Qed.

(** The two sections of the earlier post, run one right after the other,
    are the post served as a whole. *)
Lemma legacy_postMessage_sections channel mesg g :
  filled (Username mesg) (Message mesg) = true →
  Legacy.postMessage channel (Decoded mesg) g
  = Legacy.postMessage_append channel mesg (Legacy.postMessage_create channel g).
Proof.
  intros Hf. unfold Legacy.postMessage, Legacy.postMessage_append,
    Legacy.postMessage_create, Legacy.messages_of. rewrite Hf.
  destruct (Legacy.liveRWMutex g !! channel) as [mu|] eqn:Hmu; simpl.
  - by rewrite Hmu.
  - by rewrite lookup_insert_eq.
Qed.

(** What one whole request of the earlier version does to the keys of the
    two maps: nothing, or it adds the same key to both, or it writes the log
    of a key that has a lock. *)
Lemma legacy_serve_keys r g :
  (Legacy.serve r g).2 = g ∨
  (∃ channel l,
     Legacy.liveMessages (Legacy.serve r g).2 = <[channel := l]> (Legacy.liveMessages g) ∧
     is_Some (Legacy.liveRWMutex (Legacy.serve r g).2 !! channel) ∧
     ∀ c, c ≠ channel →
       Legacy.liveRWMutex (Legacy.serve r g).2 !! c = Legacy.liveRWMutex g !! c).
Proof.
  destruct r as [channel key|channel body|channel message_id|channel message_id body];
    simpl.
  - left. destruct (routeChannel channel); [|done]. apply legacy_getMessage_state.
  - destruct (routeChannel channel); [|by left].
    destruct body as [mesg|err]; [|by left]. unfold Legacy.postMessage.
    destruct (filled _ _); [|by left]. right. eexists _, _. simpl. split; [done|].
    destruct (Legacy.liveRWMutex g !! channel) eqn:Hmu.
    + rewrite Hmu. split; [eauto|done].
    + rewrite lookup_insert_eq. split; [eauto|].
      intros c Hc. by rewrite lookup_insert_ne.
  - left. destruct (_ && _); [|done]. apply legacy_getThreads_state.
  - destruct (_ && _); [|by left]. unfold Legacy.postThread.
    destruct (Go.Atoi message_id); [|by left].
    destruct body as [reply|err]; [|by left].
    destruct (filled _ _); [|by left].
    destruct (Legacy.liveRWMutex g !! channel) eqn:Hmu; [|by left].
    destruct (Go.index _ _); [|by left]. right. eexists _, _. simpl.
    split; [done|]. rewrite Hmu. split; [eauto|done].
Qed.

Lemma legacy_fire_keys e s :
  (∀ c, (is_Some (Legacy.liveMessages (Legacy.maps s) !! c) →
         is_Some (Legacy.liveRWMutex (Legacy.maps s) !! c)) ∧
        (is_Some (Legacy.liveRWMutex (Legacy.maps s) !! c) →
         is_Some (Legacy.liveMessages (Legacy.maps s) !! c) ∨
         ∃ mesg, (c, mesg) ∈ Legacy.in_flight s)) →
  ∀ c, (is_Some (Legacy.liveMessages (Legacy.maps (Legacy.fire e s)) !! c) →
        is_Some (Legacy.liveRWMutex (Legacy.maps (Legacy.fire e s)) !! c)) ∧
       (is_Some (Legacy.liveRWMutex (Legacy.maps (Legacy.fire e s)) !! c) →
        is_Some (Legacy.liveMessages (Legacy.maps (Legacy.fire e s)) !! c) ∨
        ∃ mesg, (c, mesg) ∈ Legacy.in_flight (Legacy.fire e s)).
Proof.
  intros Hinv c. destruct (Hinv c) as [Hlog Hlock].
  destruct e as [r|channel mesg|n]; simpl.
  - destruct (legacy_serve_keys r (Legacy.maps s))
      as [->|(channel & l & -> & Hmu & Hother)]; [done|].
    destruct (decide (c = channel)) as [->|Hne].
    + rewrite lookup_insert_eq. split; [done|eauto].
    + rewrite lookup_insert_ne, Hother by done. done.
  - destruct (_ && _); [|done]. simpl. unfold Legacy.postMessage_create.
    destruct (Legacy.liveRWMutex (Legacy.maps s) !! channel) eqn:Hmu; simpl.
    + split; [done|]. intros [?|[m Hm]]%Hlock; [by left|].
      right. exists m. apply elem_of_app. by left.
    + destruct (decide (c = channel)) as [->|Hne].
      * rewrite lookup_insert_eq. split; [eauto|]. intros _. right.
        exists mesg. apply elem_of_app. right. apply list_elem_of_here.
      * rewrite lookup_insert_ne by done. split; [done|].
        intros [?|[m Hm]]%Hlock; [by left|].
        right. exists m. apply elem_of_app. by left.
  - destruct (Legacy.in_flight s !! n) as [[channel mesg]|] eqn:Hn; [|done]. simpl.
    unfold Legacy.postMessage_append.
    destruct (Legacy.liveRWMutex (Legacy.maps s) !! channel) eqn:Hmu; simpl.
    + destruct (decide (c = channel)) as [->|Hne].
      * rewrite lookup_insert_eq, Hmu. split; [eauto|]. intros _. left. eauto.
      * rewrite lookup_insert_ne by done. split; [done|].
        intros [?|[m Hm]]%Hlock; [by left|].
        right. exists m. eapply elem_of_delete_other; [done..|congruence].
    + split; [done|]. intros Hc. destruct (Hlock Hc) as [?|[m Hm]]; [by left|].
      right. exists m. eapply elem_of_delete_other; [done..|].
      intros [= -> ->]. rewrite Hmu in Hc. by destruct Hc.
Qed.

Lemma legacy_interleave_keys es : ∀ s,
  (∀ c, (is_Some (Legacy.liveMessages (Legacy.maps s) !! c) →
         is_Some (Legacy.liveRWMutex (Legacy.maps s) !! c)) ∧
        (is_Some (Legacy.liveRWMutex (Legacy.maps s) !! c) →
         is_Some (Legacy.liveMessages (Legacy.maps s) !! c) ∨
         ∃ mesg, (c, mesg) ∈ Legacy.in_flight s)) →
  ∀ c, (is_Some (Legacy.liveMessages (Legacy.maps (Legacy.interleave es s)) !! c) →
        is_Some (Legacy.liveRWMutex (Legacy.maps (Legacy.interleave es s)) !! c)) ∧
       (is_Some (Legacy.liveRWMutex (Legacy.maps (Legacy.interleave es s)) !! c) →
        is_Some (Legacy.liveMessages (Legacy.maps (Legacy.interleave es s)) !! c) ∨
        ∃ mesg, (c, mesg) ∈ Legacy.in_flight (Legacy.interleave es s)).
Proof.
  induction es as [|e es IH]; intros s Hinv; [exact Hinv|].
  simpl. apply IH. by apply legacy_fire_keys.
Qed.

(** X14. In the earlier version a log always has its lock, and a lock is
    without log only while the first post to its channel is between its two
    sections.  In every state the earlier server reaches from its empty
    maps, section by section: a channel that is in [liveMessages] is in
    [liveRWMutex]; a channel that is in [liveRWMutex] is in [liveMessages],
    unless a post of a message to it has run its first section only; so
    when no post is under way the two maps have the same keys. *)
Theorem legacy_log_has_lock es c :
  (is_Some (Legacy.liveMessages (Legacy.maps (Legacy.interleave es Legacy.boot)) !! c) →
   is_Some (Legacy.liveRWMutex (Legacy.maps (Legacy.interleave es Legacy.boot)) !! c)) ∧
  (is_Some (Legacy.liveRWMutex (Legacy.maps (Legacy.interleave es Legacy.boot)) !! c) →
   is_Some (Legacy.liveMessages (Legacy.maps (Legacy.interleave es Legacy.boot)) !! c) ∨
   ∃ mesg, (c, mesg) ∈ Legacy.in_flight (Legacy.interleave es Legacy.boot)).
Proof.
  apply legacy_interleave_keys. clear. intros c. simpl.
  rewrite !lookup_empty. split; by intros [? ?].
Qed.

Lemma legacy_create_then_append channel mesg s :
  routeChannel channel = true →
  filled (Username mesg) (Message mesg) = true →
  Legacy.fire (Append (length (Legacy.in_flight s))) (Legacy.fire (Create channel mesg) s)
  = Legacy.fire (Whole (POST_messages channel (Decoded mesg))) s.
Proof.
  intros Hr Hf. simpl. rewrite Hr, Hf. simpl.
  rewrite lookup_app_r, Nat.sub_diag by done. simpl.
  f_equal.
  - rewrite <- legacy_postMessage_sections by done.
    unfold Legacy.postMessage. by rewrite Hf.
  - clear. induction (Legacy.in_flight s) as [|x l IH]; [done|]. simpl. by rewrite IH.
Qed.

(** X20. In the earlier version the branch commented "This condition should
    not occur" is taken by a read that comes between the two sections of a
    first post.  In any state the earlier server reaches, section by
    section, once a post of a message to a channel name without upper-case
    letter that has no lock yet has run its first section, the channel has a
    lock and no log, and both reads are answered "Sorry No such channel
    exist!". *)
Theorem legacy_read_between_sections es channel mesg key message_id :
  routeChannel channel = true →
  Username mesg ≠ "" → Message mesg ≠ "" →
  Go.has_upper channel = false →
  Legacy.liveRWMutex (Legacy.maps (Legacy.interleave es Legacy.boot)) !! channel = None →
  is_Some (last_id key) → is_Some (Go.Atoi message_id) →
  (Legacy.getMessage channel key
     (Legacy.maps (Legacy.fire (Create channel mesg) (Legacy.interleave es Legacy.boot)))).1
    = Respond StatusBadRequest (Text "Sorry No such channel exist!") ∧
  (Legacy.getThreads channel message_id
     (Legacy.maps (Legacy.fire (Create channel mesg) (Legacy.interleave es Legacy.boot)))).1
    = Respond StatusBadRequest (Text "Sorry No such channel exist!").
Proof.
  intros Hr Hu Hm Hlow%ToLower_fixed Hmu [afterId Hkey] [id Hid].
  assert (filled (Username mesg) (Message mesg) = true) as Hf by by apply filled_true.
  assert (Legacy.liveMessages (Legacy.maps (Legacy.interleave es Legacy.boot)) !! channel
          = None) as Hlog.
  { destruct (legacy_interleave_keys es Legacy.boot) with (c := channel) as [Hlog _].
    - clear. intros c. simpl. rewrite !lookup_empty. split; by intros [? ?].
    - destruct (Legacy.liveMessages _ !! channel) eqn:Hl; [|done].
      destruct Hlog as [? Hsome]; [eauto|]. by rewrite Hmu in Hsome. }
  simpl. rewrite Hr, Hf. simpl. unfold Legacy.postMessage_create. rewrite Hmu.
  unfold Legacy.getMessage, Legacy.getThreads. simpl.
  by rewrite Hkey, Hid, Hlow, lookup_insert_eq, Hlog.
Qed.

Lemma legacy_read_between_sections_witness :
  routeChannel "x" = true ∧ "a" ≠ "" ∧ "hi" ≠ "" ∧ Go.has_upper "x" = false ∧
  Legacy.liveRWMutex (Legacy.maps (Legacy.interleave [] Legacy.boot)) !! "x" = None ∧
  is_Some (last_id "") ∧ is_Some (Go.Atoi "0") ∧
  (Legacy.getMessage "x" ""
     (Legacy.maps (Legacy.fire (Create "x" (mkMsgPost 0 "a" "hi" []))
                               (Legacy.interleave [] Legacy.boot)))).1
    = Respond StatusBadRequest (Text "Sorry No such channel exist!") ∧
  (Legacy.getThreads "x" "0"
     (Legacy.maps (Legacy.fire (Create "x" (mkMsgPost 0 "a" "hi" []))
                               (Legacy.interleave [] Legacy.boot)))).1
    = Respond StatusBadRequest (Text "Sorry No such channel exist!").
Proof.
  assert ("a" ≠ "") as Hu by discriminate.
  assert ("hi" ≠ "") as Hm by discriminate.
  assert (is_Some (last_id "")) as Hkey by (exists 0%Z; reflexivity).
  assert (is_Some (Go.Atoi "0")) as Hid by (exists 0%Z; reflexivity).
  pose proof (legacy_read_between_sections [] "x" (mkMsgPost 0 "a" "hi" []) "" "0"
                eq_refl Hu Hm eq_refl eq_refl Hkey Hid) as Hread.
  split; [reflexivity|]. split; [exact Hu|]. split; [exact Hm|].
  split; [reflexivity|]. split; [reflexivity|]. split; [exact Hkey|].
  split; [exact Hid|]. exact Hread.
Defined.
